(** * Shallow embedding of scripts/validate_apps.py and scripts/validate_widgets.py

    The two validators walk a parsed JSON document, append diagnostics to
    the lists [self.errors] and [self.warnings], and return [len(self.errors)
    == 0].  Python evaluation may raise (TypeError, AttributeError) on
    operations applied to a value of the wrong JSON type; the exception
    propagates out of [validate] while the lists keep what was appended
    before it.  We model this with a state monad whose result is either a
    value or a raised exception, the state being kept in both cases.

    JSON numbers are modelled as integers ([JNum]); Python booleans are a
    subclass of [int], so [isinstance(True, int)] holds and [True] behaves
    as 1 in comparisons and sums: [num_of] reflects that.  JSON numbers
    with a fraction or an exponent ([40.0], [1e17]) are Python floats;
    the arithmetic checks of layout items on such values are modelled
    apart, in [PyFloat]. *)

From Stdlib Require Import Bool ZArith List String Ascii Lia RelationClasses.
From Stdlib Require PrimFloat.
Import ListNotations.
Open Scope string_scope.
Open Scope Z_scope.
Open Scope list_scope.

(** ** JSON values, as [json.load] returns them *)

Set Warnings "-register-all".

Inductive json : Type :=
| JNull
| JBool (b : bool)
| JNum (z : Z)
| JStr (s : string)
| JArr (l : list json)
| JObj (kv : list (string * json)).

(** The contents of a file the validator tries to load: absent, not
    parseable ([json.JSONDecodeError]), or parsed. *)
Inductive file_input : Type :=
| FileMissing
| FileBadJson
| FileJson (j : json).

(** ** Python operations on JSON values *)

Inductive pyexc : Type := TypeError | AttributeError.

(** Truth value: [None], [False], [0], [""], [[]], [{}] are falsy. *)
Definition truthy (v : json) : bool :=
  match v with
  | JNull => false
  | JBool b => b
  | JNum z => negb (z =? 0)
  | JStr s => negb (String.eqb s "")
  | JArr l => match l with [] => false | _ => true end
  | JObj kv => match kv with [] => false | _ => true end
  end.

(** [isinstance(v, (int, float))]: booleans are ints. *)
Definition num_of (v : json) : option Z :=
  match v with
  | JNum z => Some z
  | JBool b => Some (if b then 1 else 0)
  | _ => None
  end.

Definition is_num (v : json) : bool :=
  match num_of v with Some _ => true | None => false end.

Definition is_obj (v : json) : bool :=
  match v with JObj _ => true | _ => false end.

Definition is_list (v : json) : bool :=
  match v with JArr _ => true | _ => false end.

Definition is_str (v : json) : bool :=
  match v with JStr _ => true | _ => false end.

(** Dictionary lookup: a parsed object has distinct keys. *)
Fixpoint lookup (kv : list (string * json)) (k : string) : option json :=
  match kv with
  | [] => None
  | (k', v) :: r => if String.eqb k k' then Some v else lookup r k
  end.

Definition has_key (kv : list (string * json)) (k : string) : bool :=
  match lookup kv k with Some _ => true | None => false end.

(** [d.get(k, default)] on a dict. *)
Definition get_or (kv : list (string * json)) (k : string) (d : json) : json :=
  match lookup kv k with Some v => v | None => d end.

Fixpoint substring_of (needle hay : string) : bool :=
  String.prefix needle hay ||
  match hay with
  | EmptyString => false
  | String _ t => substring_of needle t
  end.

(** [a == b] between a string literal and a JSON value. *)
Definition eq_str (s : string) (v : json) : bool :=
  match v with JStr t => String.eqb s t | _ => false end.

(** [v in ["a", "b", ...]]: list membership by equality. *)
Definition in_str_list (v : json) (l : list string) : bool :=
  existsb (fun s => eq_str s v) l.

(** [hash(v)] succeeds for [None], booleans, numbers and strings. *)
Definition hashable (v : json) : bool :=
  match v with JArr _ | JObj _ => false | _ => true end.

(** Equality of hashable values: [1 == True], [0 == False]. *)
Definition py_heq (a b : json) : bool :=
  match a, b with
  | JNull, JNull => true
  | JStr s, JStr t => String.eqb s t
  | _, _ =>
      match num_of a, num_of b with
      | Some x, Some y => x =? y
      | _, _ => false
      end
  end.

(** ** A state monad with Python exceptions *)

Inductive res (A : Type) : Type :=
| Ok (a : A)
| Raise (e : pyexc).
Arguments Ok {A} a.
Arguments Raise {A} e.

Definition M (St A : Type) : Type := St -> St * res A.

Definition ret {St A} (a : A) : M St A := fun s => (s, Ok a).
Definition raise {St A} (e : pyexc) : M St A := fun s => (s, Raise e).
Definition bind {St A B} (m : M St A) (f : A -> M St B) : M St B :=
  fun s => match m s with
           | (s', Ok a) => f a s'
           | (s', Raise e) => (s', Raise e)
           end.
Definition gets {St A} (f : St -> A) : M St A := fun s => (s, Ok (f s)).
Definition modify {St} (f : St -> St) : M St unit := fun s => (f s, Ok tt).

Notation "x <- c1 ;; c2" := (bind c1 (fun x => c2))
  (at level 61, c1 at next level, right associativity).
Notation "c1 ;; c2" := (bind c1 (fun _ => c2))
  (at level 61, right associativity).

Definition when {St} (b : bool) (m : M St unit) : M St unit :=
  if b then m else ret tt.

(** [for x in l: body x] *)
Fixpoint for_ {St A} (l : list A) (body : A -> M St unit) : M St unit :=
  match l with
  | [] => ret tt
  | x :: r => body x;; for_ r body
  end.

(** [for i, x in enumerate(l, start=n): body i x] *)
Fixpoint for_enum {St A} (n : nat) (l : list A) (body : nat -> A -> M St unit)
  : M St unit :=
  match l with
  | [] => ret tt
  | x :: r => body n x;; for_enum (S n) r body
  end.

(** [k in v] for a string [k]: key of a dict, substring of a str,
    element of a list; any other operand raises TypeError. *)
Definition py_contains {St} (k : string) (v : json) : M St bool :=
  match v with
  | JObj kv => ret (has_key kv k)
  | JStr s => ret (substring_of k s)
  | JArr l => ret (existsb (eq_str k) l)
  | _ => raise TypeError
  end.

(** [v.get(k, d)]: only dicts have [get]. *)
Definition py_get {St} (v : json) (k : string) (d : json) : M St json :=
  match v with
  | JObj kv => ret (get_or kv k d)
  | _ => raise AttributeError
  end.

(** [v[k]] after [k in v] succeeded: a dict returns the value, a str or a
    list indexed by a str raises TypeError. *)
Definition py_getitem {St} (v : json) (k : string) : M St json :=
  match v with
  | JObj kv => match lookup kv k with Some x => ret x | None => raise TypeError end
  | _ => raise TypeError
  end.

(** A number used in [<], [<=], [+]: raises TypeError otherwise. *)
Definition as_num {St} (v : json) : M St Z :=
  match num_of v with Some z => ret z | None => raise TypeError end.

(** [x in some_set] on a Python set whose elements are hashable. *)
Definition py_set_mem {St} (x : json) (set : list json) : M St bool :=
  if hashable x then ret (existsb (py_heq x) set) else raise TypeError.

(** [some_set.add(x)] *)
Definition py_set_add {St} (x : json) (set : list json) : M St (list json) :=
  if hashable x then
    ret (if existsb (py_heq x) set then set else set ++ [x])
  else raise TypeError.

(** [for x in v] on an arbitrary JSON value: a dict yields its keys, a str
    its characters; a number, a boolean or [None] is not iterable. *)
Fixpoint chars (s : string) : list json :=
  match s with
  | EmptyString => []
  | String c t => JStr (String c EmptyString) :: chars t
  end.

Definition py_iter {St} (v : json) : M St (list json) :=
  match v with
  | JArr l => ret l
  | JObj kv => ret (map (fun p => JStr (fst p)) kv)
  | JStr s => ret (chars s)
  | _ => raise TypeError
  end.

Definition py_startswith_any (s : string) (prefixes : list string) : bool :=
  existsb (fun p => String.prefix p s) prefixes.

(** * scripts/validate_apps.py *)

(** ** Python floats

    A Python float is a binary64 value; its [+] rounds to nearest and its
    comparisons are those of IEEE 754, as the primitive floats of
    [PrimFloat] compute them. *)
Module PyFloat.
Import PrimFloat.

(** [_rectangles_overlap] of scripts/validate_apps.py on float
    arguments. *)
Definition rectangles_overlap (x1 y1 w1 h1 x2 y2 w2 h2 : float) : bool :=
  negb (PrimFloat.leb (PrimFloat.add x1 w1) x2 || PrimFloat.leb (PrimFloat.add x2 w2) x1 ||
        PrimFloat.leb (PrimFloat.add y1 h1) y2 || PrimFloat.leb (PrimFloat.add y2 h2) y1).



End PyFloat.

Module AppsValidator.

(** Location prefixes of the messages: [f"app[{i}]"],
    [f"{prefix}.tabs.{tab_id}"], [f"{prefix}.layout[{i}]"],
    [f"{prefix}.groups[{i}]"]. *)
Inductive seg : Type :=
| SApp (n : nat)
| STabs (tab_id : string)
| SLayout (n : nat)
| SGroups (n : nat).

Definition prefix : Type := list seg.

(** The f-strings appended to [self.errors] and [self.warnings]. *)
Inductive msg : Type :=
(* validate *)
| WarnAppsMissing
| WarnCannotParseWidgets
| ErrInvalidJson
| WarnAppsEmpty
| ErrAppsIsObject
| ErrAppsNotArray (apps : json)
(* _validate_app *)
| ErrMissingName (p : prefix)
| WarnMissingDescription (p : prefix)
| ErrImgNotString (p : prefix) (img_key : string)
| WarnImgNotAbsolute (p : prefix) (img_key : string)
| WarnNoTabs (p : prefix)
| ErrTabsNotObject (p : prefix)
| ErrGroupsNotArray (p : prefix)
| ErrPromptsNotArray (p : prefix)
| ErrPromptNotString (p : prefix) (i : nat)
(* _validate_tab *)
| ErrTabNotObject (p : prefix)
| WarnMissingTabName (p : prefix)
| WarnMissingTabId (p : prefix)
| WarnEmptyLayout (p : prefix)
| ErrLayoutNotArray (p : prefix)
(* _validate_layout_item *)
| ErrItemNotObject (p : prefix)
| ErrMissingWidgetId (p : prefix)
| ErrWidgetNotFound (p : prefix) (widget_id : json)
| ErrCoordNotNumber (p : prefix) (coord_name : string)
| ErrXNegative (p : prefix) (x : json)
| ErrYNegative (p : prefix) (y : json)
| ErrWNotPositive (p : prefix) (w : json)
| ErrHNotPositive (p : prefix) (h : json)
| ErrBeyondGrid (p : prefix) (x w : json)
| WarnOverlap (p : prefix) (widget_id other_id : json)
| ErrItemGroupsNotArray (p : prefix)
| ErrGroupNameNotString (p : prefix)
(* _validate_widget_state *)
| ErrStateNotObject (p : prefix)
| ErrStateParams (p : prefix)
| ErrStateChartView (p : prefix)
| ErrStateColumnState (p : prefix)
(* _validate_group *)
| ErrGroupNotObject (p : prefix)
| ErrMissingGroupName (p : prefix)
| WarnUnknownGroupType (p : prefix) (group_type : json)
| WarnMissingParamName (p : prefix)
| WarnNoWidgetsInGroup (p : prefix)
| ErrWidgetIdsNotArray (p : prefix)
| ErrGroupUnknownWidget (p : prefix) (wid : json).

(** The attributes of an [AppsValidator] object. *)
Record state : Type := mkState {
  errors : list msg;
  warnings : list msg;
  widget_ids : list json;
  layouts_validated : nat
}.

(** [AppsValidator.__init__] *)
Definition init : state := mkState [] [] [] 0.

Abbreviation AM := (M state).

Definition add_error (m : msg) : AM unit :=
  modify (fun s => mkState (errors s ++ [m]) (warnings s) (widget_ids s)
                           (layouts_validated s)).

Definition add_warning (m : msg) : AM unit :=
  modify (fun s => mkState (errors s) (warnings s ++ [m]) (widget_ids s)
                           (layouts_validated s)).

Definition set_widget_ids (ids : list json) : AM unit :=
  modify (fun s => mkState (errors s) (warnings s) ids (layouts_validated s)).

Definition incr_layouts : AM unit :=
  modify (fun s => mkState (errors s) (warnings s) (widget_ids s)
                           (S (layouts_validated s))).

(** An entry [(widget_id, x, y, w, h)] of the [positions] list.  The
    coordinates have passed the comparisons with 0, so they are ints or
    bools; we keep their integer value. *)
Record pos : Type := mkPos {
  pos_id : json; pos_x : Z; pos_y : Z; pos_w : Z; pos_h : Z
}.

(** [_rectangles_overlap] *)
Definition rectangles_overlap (x1 y1 w1 h1 x2 y2 w2 h2 : Z) : bool :=
  negb ((x1 + w1 <=? x2) || (x2 + w2 <=? x1) ||
        (y1 + h1 <=? y2) || (y2 + h2 <=? y1)).

(** [for other_id, ox, oy, ow, oh in positions: if overlap: warn; break] *)
Fixpoint check_overlaps (p : prefix) (widget_id : json) (x y w h : Z)
    (positions : list pos) : AM unit :=
  match positions with
  | [] => ret tt
  | o :: rest =>
      if rectangles_overlap x y w h (pos_x o) (pos_y o) (pos_w o) (pos_h o)
      then add_warning (WarnOverlap p widget_id (pos_id o))
      else check_overlaps p widget_id x y w h rest
  end.

(** [_validate_widget_state] *)
Definition validate_widget_state (p : prefix) (st : json) : AM unit :=
  match st with
  | JObj kv =>
      when (has_key kv "params" && negb (is_obj (get_or kv "params" JNull)))
        (add_error (ErrStateParams p));;
      when (has_key kv "chartView" && negb (is_obj (get_or kv "chartView" JNull)))
        (add_error (ErrStateChartView p));;
      when (has_key kv "columnState"
            && negb (is_obj (get_or kv "columnState" JNull)))
        (add_error (ErrStateColumnState p))
  | _ => add_error (ErrStateNotObject p)
  end.

(** [# Check widget exists in widgets.json] *)
Definition check_widget_ref (p : prefix) (widget_id : json) : AM unit :=
  ids <- gets widget_ids;;
  match ids with
  | [] => ret tt
  | _ :: _ =>
      mem <- py_set_mem widget_id ids;;
      when (negb mem) (add_error (ErrWidgetNotFound p widget_id))
  end.

(** [# Type checks] *)
Definition type_checks (p : prefix) (x y w h : json) : AM unit :=
  for_ [("x", x); ("y", y); ("w", w); ("h", h)]
    (fun c => when (negb (is_num (snd c)))
                (add_error (ErrCoordNotNumber p (fst c)))).

(** [# Range checks]: each comparison raises on a non-number; returns the
    integer values of [x], [y], [w], [h]. *)
Definition range_checks (p : prefix) (x y w h : json) : AM (Z * Z * Z * Z) :=
  xz <- as_num x;;
  when (xz <? 0) (add_error (ErrXNegative p x));;
  yz <- as_num y;;
  when (yz <? 0) (add_error (ErrYNegative p y));;
  wz <- as_num w;;
  when (wz <=? 0) (add_error (ErrWNotPositive p w));;
  hz <- as_num h;;
  when (hz <=? 0) (add_error (ErrHNotPositive p h));;
  ret (xz, yz, wz, hz).

(** [# Grid bounds check (40 columns max)] *)
Definition bounds_check (p : prefix) (x w : json) (xz wz : Z) : AM unit :=
  when (40 <? xz + wz) (add_error (ErrBeyondGrid p x w)).

(** [# Groups reference] *)
Definition item_groups_check (p : prefix) (kv : list (string * json)) : AM unit :=
  when (has_key kv "groups")
    (match get_or kv "groups" JNull with
     | JArr gs =>
         for_ gs (fun g => when (negb (is_str g))
                             (add_error (ErrGroupNameNotString p)))
     | _ => add_error (ErrItemGroupsNotArray p)
     end).

(** The rest of [_validate_layout_item] once the widget reference is
    checked: default-filling, type, range and bounds checks, overlap check
    and [positions.append], state and groups checks. *)
Definition item_position_checks (p : prefix) (kv : list (string * json))
    (widget_id : json) (positions : list pos) : AM (list pos) :=
  let x := get_or kv "x" (JNum 0) in
  let y := get_or kv "y" (JNum 0) in
  let w := get_or kv "w" (JNum 12) in
  let h := get_or kv "h" (JNum 8) in
  type_checks p x y w h;;
  r <- range_checks p x y w h;;
  let '(xz, yz, wz, hz) := r in
  bounds_check p x w xz wz;;
  check_overlaps p widget_id xz yz wz hz positions;;
  let positions' := positions ++ [mkPos widget_id xz yz wz hz] in
  when (has_key kv "state")
    (validate_widget_state p (get_or kv "state" JNull));;
  item_groups_check p kv;;
  ret positions'.

(** [_validate_layout_item]: returns the [positions] list after the
    [positions.append]. *)
Definition validate_layout_item (p : prefix) (item : json)
    (positions : list pos) : AM (list pos) :=
  match item with
  | JObj kv =>
      let widget_id := get_or kv "i" JNull in
      if negb (truthy widget_id) then
        add_error (ErrMissingWidgetId p);; ret positions
      else
        check_widget_ref p widget_id;;
        item_position_checks p kv widget_id positions
  | _ => add_error (ErrItemNotObject p);; ret positions
  end.

(** [for i, item in enumerate(layout): self._validate_layout_item(...)] *)
Fixpoint layout_loop (p : prefix) (i : nat) (items : list json)
    (positions : list pos) : AM (list pos) :=
  match items with
  | [] => ret positions
  | item :: rest =>
      positions' <- validate_layout_item (p ++ [SLayout i]) item positions;;
      layout_loop p (S i) rest positions'
  end.

(** [_validate_tab] *)
Definition validate_tab (p : prefix) (tab : json) : AM unit :=
  match tab with
  | JObj kv =>
      when (negb (has_key kv "name")) (add_warning (WarnMissingTabName p));;
      when (negb (has_key kv "id")) (add_warning (WarnMissingTabId p));;
      let layout := get_or kv "layout" (JArr []) in
      if negb (truthy layout) then add_warning (WarnEmptyLayout p)
      else
        match layout with
        | JArr items => _ <- layout_loop p 0 items [];; incr_layouts
        | _ => add_error (ErrLayoutNotArray p)
        end
  | _ => add_error (ErrTabNotObject p)
  end.

(** [_validate_group] *)
Definition validate_group (p : prefix) (group : json) : AM unit :=
  match group with
  | JObj kv =>
      when (negb (has_key kv "name")) (add_error (ErrMissingGroupName p));;
      let group_type := get_or kv "type" JNull in
      when (truthy group_type
            && negb (in_str_list group_type ["param"; "endpointParam"]))
        (add_warning (WarnUnknownGroupType p group_type));;
      when (negb (has_key kv "paramName")) (add_warning (WarnMissingParamName p));;
      let wids := get_or kv "widgetIds" (JArr []) in
      if negb (truthy wids) then add_warning (WarnNoWidgetsInGroup p)
      else
        match wids with
        | JArr l =>
            ids <- gets widget_ids;;
            for_ l (fun wid =>
              match ids with
              | [] => ret tt
              | _ :: _ =>
                  mem <- py_set_mem wid ids;;
                  when (negb mem) (add_error (ErrGroupUnknownWidget p wid))
              end)
        | _ => add_error (ErrWidgetIdsNotArray p)
        end
  | _ => add_error (ErrGroupNotObject p)
  end.

(** [_validate_app]: no type check on [app]; [in], [app[k]] and
    [app.get] act on whatever JSON value it is. *)
Definition validate_app (p : prefix) (app : json) : AM unit :=
  has_name <- py_contains "name" app;;
  when (negb has_name) (add_error (ErrMissingName p));;
  has_desc <- py_contains "description" app;;
  when (negb has_desc) (add_warning (WarnMissingDescription p));;
  for_ ["img"; "img_dark"; "img_light"] (fun img_key =>
    present <- py_contains img_key app;;
    if present then
      img_url <- py_getitem app img_key;;
      match img_url with
      | JStr u =>
          when (negb (py_startswith_any u ["http://"; "https://"; "/"]))
            (add_warning (WarnImgNotAbsolute p img_key))
      | _ => add_error (ErrImgNotString p img_key)
      end
    else ret tt);;
  tabs <- py_get app "tabs" (JObj []);;
  (if negb (truthy tabs) then add_warning (WarnNoTabs p)
   else match tabs with
        | JObj kv => for_ kv (fun t => validate_tab (p ++ [STabs (fst t)]) (snd t))
        | _ => add_error (ErrTabsNotObject p)
        end);;
  groups <- py_get app "groups" (JArr []);;
  when (truthy groups)
    (match groups with
     | JArr l => for_enum 0 l (fun i g => validate_group (p ++ [SGroups i]) g)
     | _ => add_error (ErrGroupsNotArray p)
     end);;
  prompts <- py_get app "prompts" (JArr []);;
  when (truthy prompts)
    (match prompts with
     | JArr l => for_enum 0 l (fun i pr =>
                   when (negb (is_str pr)) (add_error (ErrPromptNotString p i)))
     | _ => add_error (ErrPromptsNotArray p)
     end).

(** [{w.get("widgetId", w.get("endpoint", "")) for w in widgets}] *)
Fixpoint id_set_of_list (ws : list json) (acc : list json) : AM (list json) :=
  match ws with
  | [] => ret acc
  | w :: rest =>
      e <- py_get w "endpoint" (JStr "");;
      v <- py_get w "widgetId" e;;
      acc' <- py_set_add v acc;;
      id_set_of_list rest acc'
  end.

(** Loading [widgets.json] for the reference check. *)
Definition load_widget_ids (widgets_file : file_input) : AM unit :=
  match widgets_file with
  | FileMissing => ret tt
  | FileBadJson => add_warning WarnCannotParseWidgets
  | FileJson (JArr ws) => ids <- id_set_of_list ws [];; set_widget_ids ids
  | FileJson (JObj kv) => set_widget_ids (map (fun e => JStr (fst e)) kv)
  | FileJson _ => ret tt
  end.

Definition errors_empty : AM bool :=
  errs <- gets errors;;
  ret (match errs with [] => true | _ :: _ => false end).

(** [AppsValidator.validate], given the contents of [widgets.json] and of
    [apps.json]. *)
Definition validate (widgets_file apps_file : file_input) : AM bool :=
  match apps_file with
  | FileMissing => add_warning WarnAppsMissing;; ret true
  | FileBadJson =>
      load_widget_ids widgets_file;;
      add_error ErrInvalidJson;; ret false
  | FileJson apps =>
      load_widget_ids widgets_file;;
      match apps with
      | JArr l =>
          when (Nat.eqb (List.length l) 0) (add_warning WarnAppsEmpty);;
          for_enum 0 l (fun i app => validate_app [SApp i] app);;
          errors_empty
      | JObj _ => add_error ErrAppsIsObject;; ret false
      | _ => add_error (ErrAppsNotArray apps);; ret false
      end
  end.

End AppsValidator.

(** * scripts/validate_widgets.py *)

Module WidgetValidator.

Definition VALID_WIDGET_TYPES : list string :=
  ["table"; "chart"; "chart-highcharts"; "markdown"; "metric"; "newsfeed";
   "html"; "pdf"; "multi_file_viewer"; "advanced_charting"; "live_grid";
   "omni"; "ssrm_table"].

Definition VALID_PARAM_TYPES : list string :=
  ["text"; "number"; "boolean"; "date"; "endpoint"; "ticker"; "tabs"; "form"].

Definition VALID_CELL_DATA_TYPES : list string :=
  ["text"; "number"; "boolean"; "date"; "dateString"; "object"].

Definition VALID_CHART_DATA_TYPES : list string :=
  ["category"; "series"; "time"; "excluded"].

Definition VALID_FORMATTER_FNS : list string :=
  ["int"; "none"; "percent"; "normalized"; "normalizedPercent"; "dateToYear"].

Definition VALID_RENDER_FNS : list string :=
  ["greenRed"; "titleCase"; "hoverCard"; "cellOnClick"; "columnColor";
   "showCellChange"].

(** [f"{i}"] for a list index. *)
Fixpoint digits_aux (fuel n : nat) (acc : string) : string :=
  match fuel with
  | O => acc
  | S f =>
      let acc' := String (ascii_of_nat (48 + Nat.modulo n 10)%nat) acc in
      if Nat.ltb n 10 then acc' else digits_aux f (Nat.div n 10) acc'
  end.

Definition string_of_nat (n : nat) : string := digits_aux (S n) n "".

(** The f-strings appended to [self.errors] and [self.warnings]; [wid]
    stands for the prefix [f"[{widget_id}]"]. *)
Inductive msg : Type :=
(* validate *)
| ErrWidgetsNotFound
| ErrInvalidJson
| ErrWidgetsIsArray
| ErrWidgetsNotDict (widgets : json)
| WarnWidgetsEmpty
(* _validate_widget *)
| ErrMissingField (wid : string) (field : string)
| ErrInvalidWidgetType (wid : string) (widget_type : json)
| ErrRefetchType (wid : string)
| WarnRefetchLow (wid : string) (refetch : json)
(* _validate_grid_data *)
| ErrGridNotNumber (wid : string) (key : string)
| WarnGridWRange (wid : string) (w : json)
| WarnGridHRange (wid : string) (h : json)
(* _validate_params *)
| ErrParamMissingName (wid : string)
| ErrParamMissingType (wid : string) (param_name : json)
| ErrParamInvalidType (wid : string) (param_name param_type : json)
| ErrParamMissingOptionsEndpoint (wid : string) (param_name : json)
| ErrOptionsNotArray (wid : string) (param_name : json)
| ErrOptionNotObject (wid : string) (param_name : json) (i : nat)
| ErrOptionMissingValue (wid : string) (param_name : json) (i : nat)
| WarnDateModifier (wid : string) (param_name : json) (value : string)
(* _validate_table_widget, _validate_sparkline *)
| ErrColumnsNotArray (wid : string)
| ErrColumnNotObject (wid : string) (i : nat)
| ErrColumnMissingField (wid : string) (i : nat)
| WarnDuplicateField (wid : string) (field : json)
| ErrInvalidCellDataType (wid : string) (field cell_type : json)
| WarnUnknownChartDataType (wid : string) (field chart_type : json)
| WarnUnknownFormatter (wid : string) (field formatter : json)
| WarnUnknownRenderFn (wid : string) (field fn : json)
| WarnSparklineType (wid : string) (field spark_type : json)
| WarnSparklineMissingDataField (wid : string) (field : json)
(* _validate_mcp_tool *)
| ErrMcpMissingServer (wid : string)
| ErrMcpMissingToolId (wid : string).

(** The attributes of a [WidgetValidator] object. *)
Record state : Type := mkState {
  errors : list msg;
  warnings : list msg;
  widget_ids : list string;
  endpoint_names : list json
}.

(** [WidgetValidator.__init__] *)
Definition init : state := mkState [] [] [] [].

Abbreviation WM := (M state).

Definition add_error (m : msg) : WM unit :=
  modify (fun s => mkState (errors s ++ [m]) (warnings s) (widget_ids s)
                           (endpoint_names s)).

Definition add_warning (m : msg) : WM unit :=
  modify (fun s => mkState (errors s) (warnings s ++ [m]) (widget_ids s)
                           (endpoint_names s)).

(** [self.widget_ids.add(widget_id)] *)
Definition add_widget_id (k : string) : WM unit :=
  modify (fun s => mkState (errors s) (warnings s)
                     (if existsb (String.eqb k) (widget_ids s) then widget_ids s
                      else widget_ids s ++ [k])
                     (endpoint_names s)).

(** [self.endpoint_names.add(e)] *)
Definition add_endpoint_name (e : json) : WM unit :=
  names <- gets endpoint_names;;
  names' <- py_set_add e names;;
  modify (fun s => mkState (errors s) (warnings s) (widget_ids s) names').

(** [_validate_grid_data] *)
Definition validate_grid_data (wid : string) (grid_data : json) : WM unit :=
  match grid_data with
  | JObj kv =>
      let w := get_or kv "w" (JNum 12) in
      let h := get_or kv "h" (JNum 8) in
      (match num_of w with
       | None => add_error (ErrGridNotNumber wid "w")
       | Some z => when (negb ((10 <=? z) && (z <=? 40)))
                     (add_warning (WarnGridWRange wid w))
       end);;
      (match num_of h with
       | None => add_error (ErrGridNotNumber wid "h")
       | Some z => when (negb ((4 <=? z) && (z <=? 100)))
                     (add_warning (WarnGridHRange wid h))
       end);;
      for_ ["minW"; "maxW"; "minH"; "maxH"] (fun key =>
        when (has_key kv key && negb (is_num (get_or kv key JNull)))
          (add_error (ErrGridNotNumber wid key)))
  | _ => raise AttributeError
  end.

(** The [flat_params] list of [_validate_params]: nested lists are
    spliced, dicts kept, anything else dropped. *)
Definition flatten_params (ps : list json) : list json :=
  flat_map (fun q => match q with
                     | JArr l => l
                     | JObj _ => [q]
                     | _ => []
                     end) ps.

(** The static-options check of a [text] parameter. *)
Definition validate_options (wid : string) (param_name : json) (options : json)
  : WM unit :=
  match options with
  | JArr opts =>
      for_enum 0 opts (fun i opt =>
        match opt with
        | JObj okv =>
            when (negb (has_key okv "value"))
              (add_error (ErrOptionMissingValue wid param_name i))
        | _ => add_error (ErrOptionNotObject wid param_name i)
        end)
  | _ => add_error (ErrOptionsNotArray wid param_name)
  end.

(** The body of [for param in flat_params] in [_validate_params]. *)
Definition validate_param (wid : string) (param : json) : WM unit :=
  match param with
  | JObj kv =>
      let param_name := get_or kv "paramName" (JStr "unknown") in
      if negb (has_key kv "paramName") then add_error (ErrParamMissingName wid)
      else
        let param_type := get_or kv "type" JNull in
        if negb (truthy param_type) then
          add_error (ErrParamMissingType wid param_name)
        else
          when (negb (in_str_list param_type VALID_PARAM_TYPES))
            (add_error (ErrParamInvalidType wid param_name param_type));;
          when (eq_str "endpoint" param_type
                && negb (has_key kv "optionsEndpoint"))
            (add_error (ErrParamMissingOptionsEndpoint wid param_name));;
          when (eq_str "text" param_type && has_key kv "options")
            (validate_options wid param_name (get_or kv "options" JNull));;
          when (eq_str "date" param_type)
            (match get_or kv "value" (JStr "") with
             | JStr v =>
                 when (String.prefix "$" v
                       && negb (py_startswith_any v
                                  ["$currentDate"; "$currentDate-"]))
                   (add_warning (WarnDateModifier wid param_name v))
             | _ => ret tt
             end)
  | _ => ret tt
  end.

(** [_validate_params] *)
Definition validate_params (wid : string) (params : json) : WM unit :=
  match params with
  | JArr ps => for_ (flatten_params ps) (validate_param wid)
  | _ => ret tt
  end.

(** [_validate_sparkline] *)
Definition validate_sparkline (wid : string) (field : json) (sparkline : json)
  : WM unit :=
  spark_type <- py_get sparkline "type" JNull;;
  when (truthy spark_type && negb (in_str_list spark_type ["line"; "area"; "bar"]))
    (add_warning (WarnSparklineType wid field spark_type));;
  has_df <- py_contains "dataField" sparkline;;
  when (negb has_df) (add_warning (WarnSparklineMissingDataField wid field)).

(** The loop of [_validate_table_widget], with [fields_seen]. *)
Fixpoint columns_loop (wid : string) (i : nat) (cols : list json)
    (fields_seen : list json) : WM unit :=
  match cols with
  | [] => ret tt
  | col :: rest =>
      match col with
      | JObj kv =>
          let field := get_or kv "field"
                         (JStr (String.append "column_" (string_of_nat i))) in
          when (negb (has_key kv "field")) (add_error (ErrColumnMissingField wid i));;
          dup <- py_set_mem field fields_seen;;
          when dup (add_warning (WarnDuplicateField wid field));;
          fields_seen' <- py_set_add field fields_seen;;
          let cell_type := get_or kv "cellDataType" JNull in
          when (truthy cell_type && negb (in_str_list cell_type VALID_CELL_DATA_TYPES))
            (add_error (ErrInvalidCellDataType wid field cell_type));;
          let chart_type := get_or kv "chartDataType" JNull in
          when (truthy chart_type
                && negb (in_str_list chart_type VALID_CHART_DATA_TYPES))
            (add_warning (WarnUnknownChartDataType wid field chart_type));;
          let formatter := get_or kv "formatterFn" JNull in
          when (truthy formatter && negb (in_str_list formatter VALID_FORMATTER_FNS))
            (add_warning (WarnUnknownFormatter wid field formatter));;
          let render_fn := get_or kv "renderFn" JNull in
          when (truthy render_fn)
            (let render_fns := match render_fn with
                               | JArr l => l
                               | _ => [render_fn]
                               end in
             for_ render_fns (fun fn =>
               when (negb (in_str_list fn VALID_RENDER_FNS))
                 (add_warning (WarnUnknownRenderFn wid field fn))));;
          when (has_key kv "sparkline")
            (validate_sparkline wid field (get_or kv "sparkline" JNull));;
          columns_loop wid (S i) rest fields_seen'
      | _ =>
          add_error (ErrColumnNotObject wid i);;
          columns_loop wid (S i) rest fields_seen
      end
  end.

(** [_validate_table_widget] *)
Definition validate_table_widget (wid : string) (widget : json) : WM unit :=
  data <- py_get widget "data" (JObj []);;
  columns <- py_get data "columnsDefs" (JArr []);;
  if negb (truthy columns) then ret tt
  else
    match columns with
    | JArr cols => columns_loop wid 0 cols []
    | _ => add_error (ErrColumnsNotArray wid)
    end.

(** [_validate_chart_widget]: it only iterates over [params]. *)
Definition validate_chart_widget (wid : string) (widget : json) : WM unit :=
  params <- py_get widget "params" (JArr []);;
  _ <- py_iter params;;
  ret tt.

(** [_validate_mcp_tool] *)
Definition validate_mcp_tool (wid : string) (mcp_tool : json) : WM unit :=
  has_server <- py_contains "mcp_server" mcp_tool;;
  when (negb has_server) (add_error (ErrMcpMissingServer wid));;
  has_tool <- py_contains "tool_id" mcp_tool;;
  when (negb has_tool) (add_error (ErrMcpMissingToolId wid)).

(** The refresh-interval check at the end of [_validate_widget]:
    [isinstance(refetch, (int, float, bool))] then
    [isinstance(refetch, (int, float)) and refetch < 1000]. *)
Definition validate_refetch (wid : string) (refetch : json) : WM unit :=
  match refetch with
  | JNull => ret tt
  | _ =>
      match num_of refetch with
      | None => add_error (ErrRefetchType wid)
      | Some z => when (z <? 1000) (add_warning (WarnRefetchLow wid refetch))
      end
  end.

(** [_validate_widget]: no type check on [widget]. *)
Definition validate_widget (wid : string) (widget : json) : WM unit :=
  for_ ["name"; "type"; "endpoint"] (fun field =>
    present <- py_contains field widget;;
    when (negb present) (add_error (ErrMissingField wid field)));;
  widget_type <- py_get widget "type" JNull;;
  when (truthy widget_type && negb (in_str_list widget_type VALID_WIDGET_TYPES))
    (add_error (ErrInvalidWidgetType wid widget_type));;
  grid_data <- py_get widget "gridData" (JObj []);;
  when (truthy grid_data) (validate_grid_data wid grid_data);;
  params <- py_get widget "params" (JArr []);;
  when (truthy params) (validate_params wid params);;
  when (eq_str "table" widget_type) (validate_table_widget wid widget);;
  when (eq_str "chart" widget_type) (validate_chart_widget wid widget);;
  has_mcp <- py_contains "mcp_tool" widget;;
  when has_mcp (mcp <- py_getitem widget "mcp_tool";; validate_mcp_tool wid mcp);;
  refetch <- py_get widget "refetchInterval" JNull;;
  validate_refetch wid refetch.

Definition errors_empty : WM bool :=
  errs <- gets errors;;
  ret (match errs with [] => true | _ :: _ => false end).

(** [WidgetValidator.validate], given the contents of [widgets.json]. *)
Definition validate (widgets_file : file_input) : WM bool :=
  match widgets_file with
  | FileMissing => add_error ErrWidgetsNotFound;; ret false
  | FileBadJson => add_error ErrInvalidJson;; ret false
  | FileJson (JArr _) => add_error ErrWidgetsIsArray;; ret false
  | FileJson (JObj kv) =>
      match kv with
      | [] => add_warning WarnWidgetsEmpty;; ret true
      | _ :: _ =>
          for_ kv (fun e =>
            add_widget_id (fst e);;
            has_ep <- py_contains "endpoint" (snd e);;
            when has_ep (ep <- py_getitem (snd e) "endpoint";; add_endpoint_name ep));;
          for_ kv (fun e => validate_widget (fst e) (snd e));;
          errors_empty
      end
  | FileJson j => add_error (ErrWidgetsNotDict j);; ret false
  end.

End WidgetValidator.

(** * Running the monad *)

Section Run.
Context {St : Type}.

Lemma bind_ok {A B} (m : M St A) (f : A -> M St B) s s1 a :
  m s = (s1, Ok a) -> bind m f s = f a s1.
Proof. intros H. unfold bind. now rewrite H. Qed.

Lemma bind_raise {A B} (m : M St A) (f : A -> M St B) s s1 e :
  m s = (s1, Raise e) -> bind m f s = (s1, Raise e).
Proof. intros H. unfold bind. now rewrite H. Qed.

Lemma bind_inv {A B} (m : M St A) (f : A -> M St B) s s' r :
  bind m f s = (s', r) ->
  (exists s1 a, m s = (s1, Ok a) /\ f a s1 = (s', r)) \/
  (exists e, m s = (s', Raise e) /\ r = Raise e).
Proof.
  unfold bind. destruct (m s) as [s1 [a|e]] eqn:E; intros H.
  - left. eauto.
  - right. inversion H; subst. eauto.
Qed.

(** Computations whose every run, raising or not, relates the initial and
    final states by [R]. *)
Variable R : St -> St -> Prop.
Context {R_refl : Reflexive R} {R_trans : Transitive R}.

Definition keeps {A} (m : M St A) : Prop :=
  forall s s' r, m s = (s', r) -> R s s'.

Lemma keeps_ret {A} (a : A) : keeps (ret a).
Proof. intros s s' r H. inversion H; subst. reflexivity. Qed.

Lemma keeps_raise {A} e : keeps (A := A) (raise e).
Proof. intros s s' r H. inversion H; subst. reflexivity. Qed.

Lemma keeps_gets {A} (f : St -> A) : keeps (gets f).
Proof. intros s s' r H. inversion H; subst. reflexivity. Qed.

Lemma keeps_bind {A B} (m : M St A) (f : A -> M St B) :
  keeps m -> (forall a, keeps (f a)) -> keeps (bind m f).
Proof.
  intros Hm Hf s s' r H. apply bind_inv in H as [(s1 & a & H1 & H2) | (e & H1 & _)].
  - etransitivity; [eapply Hm; eauto | eapply Hf; eauto].
  - eapply Hm; eauto.
Qed.

Lemma keeps_when b (m : M St unit) : keeps m -> keeps (when b m).
Proof. intros Hm. destruct b; [exact Hm | apply keeps_ret]. Qed.

Lemma keeps_for {A} (l : list A) body :
  (forall x, keeps (body x)) -> keeps (for_ l body).
Proof.
  intros Hb. induction l as [|x l IH]; simpl.
  - apply keeps_ret.
  - apply keeps_bind; auto.
Qed.

Lemma keeps_for_enum {A} (l : list A) n body :
  (forall i x, keeps (body i x)) -> keeps (for_enum n l body).
Proof.
  intros Hb. revert n. induction l as [|x l IH]; intros n; simpl.
  - apply keeps_ret.
  - apply keeps_bind; auto.
Qed.

Lemma keeps_as_num v : keeps (as_num v).
Proof. unfold as_num. destruct (num_of v); [apply keeps_ret | apply keeps_raise]. Qed.

Lemma keeps_py_set_mem x set : keeps (py_set_mem x set).
Proof. unfold py_set_mem. destruct (hashable x); [apply keeps_ret | apply keeps_raise]. Qed.

Lemma keeps_py_set_add x set : keeps (py_set_add x set).
Proof. unfold py_set_add. destruct (hashable x); [apply keeps_ret | apply keeps_raise]. Qed.

Lemma keeps_py_get v k d : keeps (py_get v k d).
Proof. unfold py_get. destruct v; first [apply keeps_ret | apply keeps_raise]. Qed.

Lemma keeps_py_contains k v : keeps (py_contains k v).
Proof. unfold py_contains. destruct v; first [apply keeps_ret | apply keeps_raise]. Qed.

Lemma keeps_py_getitem v k : keeps (py_getitem v k).
Proof.
  unfold py_getitem. destruct v; try apply keeps_raise.
  destruct (lookup kv k); [apply keeps_ret | apply keeps_raise].
Qed.

Lemma keeps_py_iter v : keeps (py_iter v).
Proof. unfold py_iter. destruct v; first [apply keeps_ret | apply keeps_raise]. Qed.







End Run.

(** Close the preorder side conditions left by [apply]. *)
Ltac tc := match goal with
           | |- Reflexive _ => exact _
           | |- Transitive _ => exact _
           end.

(** Peel the first step off a run [bind m f s = (s', Ok _)]. *)
Ltac peel H s1 a1 H1 :=
  apply bind_inv in H as [(s1 & a1 & H1 & H) | (?e & ?Hrun & ?Hres)];
  [ | discriminate ].

(** Decompose a computation into its steps, leaving the primitive ones. *)
Ltac keeps_steps :=
  repeat match goal with
  | |- keeps _ (bind _ _) => apply keeps_bind; try tc; [ | intro ]
  | |- keeps _ (when _ _) => apply keeps_when; try tc
  | |- keeps _ (for_ _ _) => apply keeps_for; try tc; intro
  | |- keeps _ (for_enum _ _ _) => apply keeps_for_enum; try tc; intros ? ?
  | |- keeps _ (match ?x with _ => _ end) => destruct x
  | |- keeps _ (let '(_, _) := ?x in _) => destruct x
  end.

Section Total.
Context {St : Type}.

(** Computations that never raise. *)
Definition total {A} (m : M St A) : Prop :=
  forall s, exists s' a, m s = (s', Ok a).

Lemma total_ret {A} (a : A) : total (ret a).
Proof. intros s. exists s, a. reflexivity. Qed.

Lemma total_gets {A} (f : St -> A) : total (gets f).
Proof. intros s. exists s, (f s). reflexivity. Qed.

Lemma total_modify f : total (modify f).
Proof. intros s. eexists _, tt. reflexivity. Qed.

Lemma total_bind {A B} (m : M St A) (f : A -> M St B) :
  total m -> (forall a, total (f a)) -> total (bind m f).
Proof.
  intros Hm Hf s. destruct (Hm s) as (s1 & a & H1).
  rewrite (bind_ok _ _ _ _ _ H1). apply Hf.
Qed.

Lemma total_when b (m : M St unit) : total m -> total (when b m).
Proof. intros Hm. destruct b; [exact Hm | apply total_ret]. Qed.

Lemma total_for {A} (l : list A) body :
  (forall x, total (body x)) -> total (for_ l body).
Proof.
  intros Hb. induction l as [|x l IH]; simpl.
  - apply total_ret.
  - apply total_bind; auto.
Qed.

Lemma total_for_enum {A} (l : list A) n body :
  (forall i x, total (body i x)) -> total (for_enum n l body).
Proof.
  intros Hb. revert n. induction l as [|x l IH]; intros n; simpl.
  - apply total_ret.
  - apply total_bind; auto.
Qed.

End Total.

Ltac total_steps :=
  repeat match goal with
  | |- total (bind _ _) => apply total_bind; [ | intro ]
  | |- total (when _ _) => apply total_when
  | |- total (for_ _ _) => apply total_for; intro
  | |- total (for_enum _ _ _) => apply total_for_enum; intros ? ?
  | |- total (ret _) => apply total_ret
  | |- total (gets _) => apply total_gets
  | |- total (modify _) => apply total_modify
  | |- total (match ?x with _ => _ end) => destruct x
  end.

(** * Proofs about the app/layout validator *)

Module AppsProofs.
Import AppsValidator.

(** Runs that only append errors satisfying [Q], and leave the widget-id
    set alone. *)
Definition err_grows (Q : msg -> bool) (s s' : state) : Prop :=
  (exists new, errors s' = errors s ++ new /\ forallb Q new = true) /\
  widget_ids s' = widget_ids s.

Definition warn_same (s s' : state) : Prop := warnings s' = warnings s.

#[export] Instance err_grows_refl Q : Reflexive (err_grows Q).
Proof. intros s. split; [exists []; rewrite app_nil_r; auto | auto]. Qed.

#[export] Instance err_grows_trans Q : Transitive (err_grows Q).
Proof.
  intros s1 s2 s3 [(n1 & E1 & Q1) I1] [(n2 & E2 & Q2) I2]. split.
  - exists (n1 ++ n2). rewrite E2, E1, app_assoc, forallb_app, Q1, Q2. auto.
  - congruence.
Qed.

#[export] Instance warn_same_refl : Reflexive warn_same.
Proof. intros s. reflexivity. Qed.

#[export] Instance warn_same_trans : Transitive warn_same.
Proof. intros s1 s2 s3 H1 H2. unfold warn_same in *. congruence. Qed.

Lemma keeps_add_error Q m : Q m = true -> keeps (err_grows Q) (add_error m).
Proof.
  intros Hm s s' r H. inversion H; subst. split; [|reflexivity].
  exists [m]. simpl. rewrite Hm. auto.
Qed.

Lemma keeps_add_warning Q m : keeps (err_grows Q) (add_warning m).
Proof. intros s s' r H. inversion H; subst. split; [exists []|]; simpl; auto using app_nil_r. Qed.

Lemma keeps_incr_layouts Q : keeps (err_grows Q) incr_layouts.
Proof. intros s s' r H. inversion H; subst. split; [exists []|]; simpl; auto using app_nil_r. Qed.

Lemma warn_add_error m : keeps warn_same (add_error m).
Proof. intros s s' r H. inversion H; subst. reflexivity. Qed.

Lemma keeps_check_overlaps Q p wid x y w h ps :
  keeps (err_grows Q) (check_overlaps p wid x y w h ps).
Proof.
  induction ps as [|o ps IH]; simpl.
  - apply keeps_ret; exact _.
  - destruct (rectangles_overlap _ _ _ _ _ _ _ _); [apply keeps_add_warning | exact IH].
Qed.


Ltac apps_keeps :=
  keeps_steps;
  first [ apply keeps_ret; exact _ | apply keeps_raise; exact _
        | apply keeps_gets; exact _
        | apply keeps_as_num; exact _ | apply keeps_py_set_mem; exact _
        | apply keeps_py_set_add; exact _
        | apply keeps_py_get; exact _ | apply keeps_py_contains; exact _
        | apply keeps_py_getitem; exact _
        | apply keeps_add_warning | apply keeps_incr_layouts
        | apply keeps_check_overlaps
        | apply keeps_add_error; reflexivity
        | apply warn_add_error ].

(** Messages other than an unresolved widget reference. *)
Definition not_widget_not_found (m : msg) : bool :=
  match m with ErrWidgetNotFound _ _ => false | _ => true end.

Lemma item_position_checks_no_not_found p kv wid ps :
  keeps (err_grows not_widget_not_found) (item_position_checks p kv wid ps).
Proof.
  unfold item_position_checks, type_checks, range_checks, bounds_check,
    validate_widget_state, item_groups_check; simpl.
  repeat apps_keeps.
Qed.

Definition count_not_found (l : list msg) : nat :=
  List.length (filter (fun m => negb (not_widget_not_found m)) l).

Lemma count_not_found_app l1 l2 :
  count_not_found (l1 ++ l2) = (count_not_found l1 + count_not_found l2)%nat.
Proof. unfold count_not_found. now rewrite filter_app, length_app. Qed.

Lemma count_not_found_none l :
  forallb not_widget_not_found l = true -> count_not_found l = 0%nat.
Proof.
  induction l as [|m l IH]; simpl; auto.
  intros H. apply andb_prop in H as [H1 H2]. unfold count_not_found in *.
  simpl. rewrite H1. simpl. auto.
Qed.

Lemma truthy_nonempty_str w : w <> "" -> truthy (JStr w) = true.
Proof.
  intros Hw. simpl. destruct (String.eqb_spec w ""); [contradiction | reflexivity].
Qed.




(** Claim C3.  A layout item whose widget reference [i] is a non-empty
    string absent from the known widget-id set gets exactly one
    unresolved-reference error when that set is non-empty, and none when
    it is empty; this holds whether or not the rest of the item's checks
    raise. *)
Theorem unresolved_reference_error_once :
  forall p kv w ps s s' r,
  get_or kv "i" JNull = JStr w -> w <> "" ->
  existsb (py_heq (JStr w)) (widget_ids s) = false ->
  validate_layout_item p (JObj kv) ps s = (s', r) ->
  exists new, errors s' = errors s ++ new /\
    count_not_found new = (match widget_ids s with [] => 0 | _ :: _ => 1 end)%nat.
Proof.
  intros p kv w ps s s' r Hi Hw Hmem H.
  unfold validate_layout_item in H. cbv zeta in H.
  rewrite Hi, (truthy_nonempty_str w Hw) in H. cbn [negb] in H.
  destruct (widget_ids s) as [|id ids] eqn:E.
  - assert (Hc : check_widget_ref p (JStr w) s = (s, Ok tt)).
    { unfold check_widget_ref, bind, gets. rewrite E. reflexivity. }
    rewrite (bind_ok _ _ _ _ _ Hc) in H.
    apply item_position_checks_no_not_found in H as [(new & E1 & Q1) _].
    exists new. split; [exact E1 | now apply count_not_found_none].
  - assert (Hc : check_widget_ref p (JStr w) s =
                 (mkState (errors s ++ [ErrWidgetNotFound p (JStr w)]) (warnings s)
                          (widget_ids s) (layouts_validated s), Ok tt)).
    { unfold check_widget_ref, bind, gets, py_set_mem. rewrite E. simpl hashable.
      cbv iota beta. unfold ret. rewrite Hmem. simpl.
      unfold add_error, modify. rewrite E. reflexivity. }
    rewrite (bind_ok _ _ _ _ _ Hc) in H.
    apply item_position_checks_no_not_found in H as [(new & E1 & Q1) _].
    simpl in E1. exists (ErrWidgetNotFound p (JStr w) :: new). split.
    + rewrite E1, <- app_assoc. reflexivity.
    + change (ErrWidgetNotFound p (JStr w) :: new)
        with ([ErrWidgetNotFound p (JStr w)] ++ new).
      rewrite count_not_found_app, (count_not_found_none new Q1). reflexivity.
Qed.

Definition ref_kv : list (string * json) := [("i", JStr "w2"); ("x", JNum 0)].
Definition ref_state : state := mkState [] [] [JStr "w1"] 0.

Lemma unresolved_reference_error_once_witness :
  let '(s', _) := validate_layout_item [] (JObj ref_kv) [] ref_state in
  exists new, errors s' = errors ref_state ++ new /\ count_not_found new = 1%nat.
Proof.
  destruct (validate_layout_item [] (JObj ref_kv) [] ref_state) as [s' r] eqn:E.
  apply (unresolved_reference_error_once [] ref_kv "w2" [] ref_state s' r);
    [reflexivity | discriminate | reflexivity | exact E].
Defined.

(** Claim C10.  A layout item whose widget reference [i] is absent or
    falsy gets the missing-widget-ID error and nothing else: no other
    error or warning, and the position history is returned unchanged, so
    the item is never bounds- or range-checked and no later item can be
    compared against it. *)
Theorem missing_widget_id_only_error :
  forall p kv ps s,
  truthy (get_or kv "i" JNull) = false ->
  validate_layout_item p (JObj kv) ps s =
  (mkState (errors s ++ [ErrMissingWidgetId p]) (warnings s) (widget_ids s)
           (layouts_validated s), Ok ps).
Proof.
  intros p kv ps s H. unfold validate_layout_item. cbv zeta. rewrite H.
  reflexivity.
Qed.

Lemma missing_widget_id_only_error_witness :
  validate_layout_item [] (JObj [("i", JStr ""); ("x", JNum 35); ("w", JNum 10)])
    [] AppsValidator.init =
  (mkState [ErrMissingWidgetId []] [] [] 0, Ok []).
Proof. apply missing_widget_id_only_error. reflexivity. Defined.














(** ** Overlap warnings of a tab, following the spec's words

    An item enters the position history when it is an object with a truthy
    widget reference and numeric coordinates; each item is compared with
    the history built from the earlier items of the same layout, and warned
    against the first entry it overlaps, if any. *)
Definition entry_of (item : json) : option pos :=
  match item with
  | JObj kv =>
      let widget_id := get_or kv "i" JNull in
      if truthy widget_id then
        match num_of (get_or kv "x" (JNum 0)), num_of (get_or kv "y" (JNum 0)),
              num_of (get_or kv "w" (JNum 12)), num_of (get_or kv "h" (JNum 8)) with
        | Some xz, Some yz, Some wz, Some hz => Some (mkPos widget_id xz yz wz hz)
        | _, _, _, _ => None
        end
      else None
  | _ => None
  end.

Definition entries (items : list json) : list pos :=
  flat_map (fun it => match entry_of it with Some q => [q] | None => [] end) items.

Definition first_overlap (q : pos) (hist : list pos) : option pos :=
  find (fun o => rectangles_overlap (pos_x q) (pos_y q) (pos_w q) (pos_h q)
                   (pos_x o) (pos_y o) (pos_w o) (pos_h o)) hist.

Definition item_overlap_warnings (p : prefix) (item : json) (hist : list pos)
  : list msg :=
  match entry_of item with
  | Some q =>
      match first_overlap q hist with
      | Some o => [WarnOverlap p (pos_id q) (pos_id o)]
      | None => []
      end
  | None => []
  end.

Definition layout_overlap_warnings (p : prefix) (items : list json) : list msg :=
  List.concat (map (fun k => item_overlap_warnings (p ++ [SLayout k]) (nth k items JNull)
                          (entries (firstn k items)))
              (seq 0 (List.length items))).

Lemma entries_cons it l : entries (it :: l) = entries [it] ++ entries l.
Proof. unfold entries. simpl. rewrite app_nil_r. reflexivity. Qed.

Lemma check_overlaps_run p wid x y w h hist s :
  check_overlaps p wid x y w h hist s =
  (mkState (errors s)
     (warnings s ++ match first_overlap (mkPos wid x y w h) hist with
                    | Some o => [WarnOverlap p wid (pos_id o)]
                    | None => []
                    end)
     (widget_ids s) (layouts_validated s), Ok tt).
Proof.
  induction hist as [|o hist IH]; simpl.
  - rewrite app_nil_r. destruct s. reflexivity.
  - unfold first_overlap in *. simpl.
    destruct (rectangles_overlap x y w h (pos_x o) (pos_y o) (pos_w o) (pos_h o)).
    + reflexivity.
    + exact IH.
Qed.

Lemma range_checks_ok_inv p x y w h s s' xz yz wz hz :
  range_checks p x y w h s = (s', Ok (xz, yz, wz, hz)) ->
  num_of x = Some xz /\ num_of y = Some yz /\ num_of w = Some wz /\
  num_of h = Some hz /\ warnings s' = warnings s.
Proof.
  unfold range_checks, as_num.
  destruct (num_of x) as [x'|]; [|cbn; discriminate].
  destruct (num_of y) as [y'|]; destruct (num_of w) as [w'|];
    destruct (num_of h) as [h'|]; cbn;
    destruct (x' <? 0); cbn; try discriminate;
    try (destruct (y' <? 0); cbn; try discriminate);
    try (destruct (w' <=? 0); cbn; try discriminate);
    try (destruct (h' <=? 0); cbn; try discriminate);
    intros H; inversion H; subst; repeat split; reflexivity.
Qed.

Lemma when_add_warning_run b m s :
  when b (add_warning m) s =
  (mkState (errors s) (warnings s ++ (if b then [m] else [])) (widget_ids s)
           (layouts_validated s), Ok tt).
Proof. destruct b; [reflexivity|]. rewrite app_nil_r. destruct s. reflexivity. Qed.

(** A sub-run that emits no warning. *)
Ltac same_warnings H :=
  match type of H with
  | ?m _ = _ =>
      let K := fresh "K" in
      assert (K : keeps warn_same m)
        by (unfold check_widget_ref, type_checks, bounds_check,
              validate_widget_state, item_groups_check; repeat apps_keeps);
      apply K in H; unfold warn_same in H
  end.

Lemma validate_layout_item_warnings p it hist s s' ps :
  validate_layout_item p it hist s = (s', Ok ps) ->
  warnings s' = warnings s ++ item_overlap_warnings p it hist /\
  ps = hist ++ entries [it].
Proof.
  intros H. destruct it as [| | | | |kv];
    try (cbn in H; inversion H; subst; cbn; rewrite !app_nil_r; auto; fail).
  unfold validate_layout_item in H. cbv zeta in H.
  unfold item_overlap_warnings, entries. simpl flat_map.
  unfold entry_of. cbv zeta.
  destruct (truthy (get_or kv "i" JNull)) eqn:Ht; cbn [negb] in H.
  2: { cbn in H. inversion H; subst. cbn. rewrite !app_nil_r. auto. }
  peel H s1 u1 E1. same_warnings E1. cbv beta in H.
  unfold item_position_checks in H. cbv zeta in H.
  peel H s2 u2 E2. same_warnings E2. cbv beta in H.
  peel H s3 v3 E3. destruct v3 as [[[xz yz] wz] hz].
  apply range_checks_ok_inv in E3 as (Hx & Hy & Hw & Hh & W3).
  cbv beta iota in H.
  peel H s4 u4 E4. same_warnings E4. cbv beta in H.
  peel H s5 u5 E5. rewrite check_overlaps_run in E5. inversion E5; subst; clear E5.
  cbv beta in H.
  peel H s6 u6 E6. same_warnings E6. cbv beta in H.
  peel H s7 u7 E7. same_warnings E7. cbv beta in H.
  inversion H; subst; clear H.
  rewrite Hx, Hy, Hw, Hh. simpl. split.
  - rewrite E7, E6. simpl. rewrite E4, W3, E2, E1. reflexivity.
  - reflexivity.
Qed.

Lemma layout_loop_warnings p items : forall j hist s s' ps,
  layout_loop p j items hist s = (s', Ok ps) ->
  warnings s' = warnings s ++
    List.concat (map (fun k => item_overlap_warnings (p ++ [SLayout (j + k)])
                            (nth k items JNull) (hist ++ entries (firstn k items)))
                (seq 0 (List.length items))) /\
  ps = hist ++ entries items.
Proof.
  induction items as [|it items IH]; intros j hist s s' ps H.
  - cbn in H. inversion H; subst. simpl. rewrite !app_nil_r. auto.
  - simpl in H. peel H s1 ps1 E1. cbv beta in H.
    apply validate_layout_item_warnings in E1 as [W1 P1]. subst ps1.
    apply IH in H as [W2 P2]. split.
    + rewrite W2, W1, <- app_assoc. f_equal. simpl List.length.
      change (seq 0 (S (List.length items))) with (0%nat :: seq 1 (List.length items)).
      rewrite <- seq_shift, map_cons, map_map. cbn [List.concat].
      f_equal.
      * rewrite Nat.add_0_r. simpl. rewrite app_nil_r. reflexivity.
      * f_equal. apply map_ext. intros k.
        rewrite Nat.add_succ_r, <- Nat.add_succ_l. simpl nth. simpl firstn.
        rewrite (entries_cons it (firstn k items)), app_assoc. reflexivity.
    + rewrite P2, (entries_cons it items), app_assoc. reflexivity.
Qed.

(** Claim C7.  When [_validate_tab] completes on a tab whose layout is a
    non-empty array, the warnings it appends are the missing-name and
    missing-id warnings followed by, for each item in array order, at most
    one overlap warning: against the first entry, in traversal order, of
    the position history built from the earlier items of that same layout.
    The appended warnings do not depend on the state the validator was in,
    so nothing from a previous tab or app takes part in the comparison. *)
Theorem tab_overlap_warnings_first_match_local :
  forall p kv items s s',
  get_or kv "layout" (JArr []) = JArr items -> items <> [] ->
  validate_tab p (JObj kv) s = (s', Ok tt) ->
  warnings s' = warnings s ++
    (if has_key kv "name" then [] else [WarnMissingTabName p]) ++
    (if has_key kv "id" then [] else [WarnMissingTabId p]) ++
    layout_overlap_warnings p items.
Proof.
  intros p kv items s s' Hl Hne H.
  unfold validate_tab in H. cbv zeta in H.
  rewrite Hl in H.
  assert (Ht : truthy (JArr items) = true)
    by (destruct items; [contradiction | reflexivity]).
  rewrite Ht in H. cbn [negb] in H.
  rewrite (bind_ok _ _ _ _ _ (when_add_warning_run _ _ _)) in H.
  rewrite (bind_ok _ _ _ _ _ (when_add_warning_run _ _ _)) in H.
  peel H s1 ps1 E1. apply layout_loop_warnings in E1 as [W _].
  cbv beta in H. unfold incr_layouts, modify in H. inversion H; subst; clear H.
  simpl. simpl in W. rewrite W. rewrite <- !app_assoc.
  destruct (has_key kv "name"), (has_key kv "id"); reflexivity.
Qed.

Definition overlap_item (wid : string) (x : Z) : json :=
  JObj [("i", JStr wid); ("x", JNum x); ("y", JNum 0); ("w", JNum 12); ("h", JNum 8)].

Definition overlap_tab_kv : list (string * json) :=
  [("name", JStr "T"); ("id", JStr "t1");
   ("layout", JArr [overlap_item "a" 0; overlap_item "b" 5; overlap_item "c" 6])].

Lemma tab_overlap_warnings_first_match_local_witness :
  snd (validate_tab [] (JObj overlap_tab_kv) init) = Ok tt /\
  warnings (fst (validate_tab [] (JObj overlap_tab_kv) init)) =
  warnings init ++ [] ++ [] ++
    layout_overlap_warnings [] [overlap_item "a" 0; overlap_item "b" 5;
                                overlap_item "c" 6].
Proof.
  split; [reflexivity|].
  apply (tab_overlap_warnings_first_match_local [] overlap_tab_kv _ init
           (fst (validate_tab [] (JObj overlap_tab_kv) init)));
    [reflexivity | discriminate | reflexivity].
Defined.

(** On that tab, the third item overlaps both earlier ones and is warned
    against the first only. *)
Example overlap_tab_warnings :
  layout_overlap_warnings [] [overlap_item "a" 0; overlap_item "b" 5;
                              overlap_item "c" 6] =
  [WarnOverlap [SLayout 1] (JStr "b") (JStr "a");
   WarnOverlap [SLayout 2] (JStr "c") (JStr "a")].
Proof. reflexivity. Qed.

End AppsProofs.

(** * Proofs about the widget validator *)

Module WidgetProofs.
Import WidgetValidator.

(** The option errors of a static options list, following the spec's
    words: a non-list gives one error, and each non-object option or
    object option without [value] gives one error, in list order. *)
Fixpoint option_errors_at (wid : string) (pn : json) (i : nat) (opts : list json)
  : list msg :=
  match opts with
  | [] => []
  | opt :: r =>
      match opt with
      | JObj okv =>
          if has_key okv "value" then [] else [ErrOptionMissingValue wid pn i]
      | _ => [ErrOptionNotObject wid pn i]
      end ++ option_errors_at wid pn (S i) r
  end.

Definition option_errors (wid : string) (pn : json) (options : json) : list msg :=
  match options with
  | JArr opts => option_errors_at wid pn 0 opts
  | _ => [ErrOptionsNotArray wid pn]
  end.

Definition with_errors (s : state) (new : list msg) : state :=
  mkState (errors s ++ new) (warnings s) (widget_ids s) (endpoint_names s).

Lemma with_errors_nil s : with_errors s [] = s.
Proof. destruct s. unfold with_errors. simpl. now rewrite app_nil_r. Qed.

Lemma with_errors_app s n1 n2 :
  with_errors (with_errors s n1) n2 = with_errors s (n1 ++ n2).
Proof. unfold with_errors. simpl. now rewrite app_assoc. Qed.

Lemma options_loop_run wid pn opts : forall i s,
  for_enum i opts (fun i opt =>
    match opt with
    | JObj okv =>
        when (negb (has_key okv "value"))
          (add_error (ErrOptionMissingValue wid pn i))
    | _ => add_error (ErrOptionNotObject wid pn i)
    end) s =
  (with_errors s (option_errors_at wid pn i opts), Ok tt).
Proof.
  induction opts as [|opt r IH]; intros i s; simpl.
  - now rewrite with_errors_nil.
  - unfold bind at 1.
    destruct opt as [| | | | |okv]; simpl;
      [ .. | destruct (has_key okv "value"); simpl; [now rewrite IH | ]];
      rewrite IH; unfold with_errors; simpl; now rewrite <- app_assoc.
Qed.

Lemma validate_options_run wid pn options s :
  validate_options wid pn options s =
  (with_errors s (option_errors wid pn options), Ok tt).
Proof.
  destruct options; try reflexivity. apply options_loop_run.
Qed.

(** ** C4 *)

(** C4: a widget registry that parses as a JSON array gets exactly the
    must-be-an-object error ([ErrWidgetsIsArray], the source's fixed
    message with its expected and received examples) and nothing else:
    the warnings, the widget ids and the endpoint names are untouched, no
    widget is looked at, and the result is failure; on a fresh validator
    the error list is exactly that one entry. *)
Theorem array_registry_single_error :
  forall (l : list json) (s : state),
  validate (FileJson (JArr l)) s =
  (mkState (errors s ++ [ErrWidgetsIsArray]) (warnings s) (widget_ids s)
           (endpoint_names s), Ok false) /\
  validate (FileJson (JArr l)) init =
  (mkState [ErrWidgetsIsArray] [] [] [], Ok false).
Proof. intros l s. split; reflexivity. Qed.

(** ** C8 *)

Definition param_kv (ptype : string) (options : json) : list (string * json) :=
  [("paramName", JStr "p"); ("type", JStr ptype); ("options", options)].

(** C8, as the spec states it, fails: a [number] parameter whose options
    list holds a non-object option gets no error at all. *)
Lemma options_claim_number_param :
  validate_params "w" (JArr [JObj (param_kv "number" (JArr [JNum 5]))]) init =
  (init, Ok tt).
Proof. reflexivity. Qed.

(** The option errors of [_validate_params]. *)
Definition is_option_error (m : msg) : bool :=
  match m with
  | ErrOptionsNotArray _ _ | ErrOptionNotObject _ _ _ | ErrOptionMissingValue _ _ _ => true
  | _ => false
  end.

(** The option errors the amended C8 expects of one parameter: only an
    object carrying [paramName], of type ["text"] and with an [options]
    key has its options checked. *)
Definition param_option_errors (wid : string) (param : json) : list msg :=
  match param with
  | JObj kv =>
      if has_key kv "paramName" then
        if eq_str "text" (get_or kv "type" JNull) && has_key kv "options"
        then option_errors wid (get_or kv "paramName" (JStr "unknown"))
               (get_or kv "options" JNull)
        else []
      else []
  | _ => []
  end.

(** ... and of a whole [params] value, nested lists flattened. *)
Definition params_option_errors (wid : string) (params : json) : list msg :=
  match params with
  | JArr ps => flat_map (param_option_errors wid) (flatten_params ps)
  | _ => []
  end.

Lemma option_errors_at_all wid pn i opts :
  filter is_option_error (option_errors_at wid pn i opts) = option_errors_at wid pn i opts.
Proof.
  revert i. induction opts as [|opt r IH]; intros i; [reflexivity|].
  destruct opt as [| | | | |okv]; simpl; rewrite ?IH; try reflexivity.
  destruct (has_key okv "value"); simpl; now rewrite IH.
Qed.

Lemma option_errors_all wid pn options :
  filter is_option_error (option_errors wid pn options) = option_errors wid pn options.
Proof. destruct options; try reflexivity. apply option_errors_at_all. Qed.

Lemma when_add_error_run b m s :
  when b (add_error m) s = (with_errors s (if b then [m] else []), Ok tt).
Proof. destruct b; [reflexivity|]. now rewrite with_errors_nil. Qed.

Lemma when_options_run b wid pn options s :
  when b (validate_options wid pn options) s =
  (with_errors s (if b then option_errors wid pn options else []), Ok tt).
Proof. destruct b; [apply validate_options_run|]. now rewrite with_errors_nil. Qed.

Lemma eq_str_text_truthy v : eq_str "text" v = true -> truthy v = true.
Proof.
  destruct v as [| | |t| |]; try discriminate. cbv [eq_str truthy].
  intros E. apply String.eqb_eq in E. subst t. reflexivity.
Qed.

Lemma validate_param_option_errors wid param s :
  exists s', validate_param wid param s = (s', Ok tt) /\
  exists new, errors s' = errors s ++ new /\
              filter is_option_error new = param_option_errors wid param.
Proof.
  destruct param as [| | | | |kv];
    try (exists s; split; [reflexivity | exists []; split; [now rewrite app_nil_r | reflexivity]]).
  unfold validate_param, param_option_errors. cbv zeta.
  destruct (has_key kv "paramName"); cbn [negb].
  2:{ eexists. split; [reflexivity|]. exists [ErrParamMissingName wid]. split; reflexivity. }
  destruct (truthy (get_or kv "type" JNull)) eqn:Ht; cbn [negb].
  2:{ eexists. split; [reflexivity|]. eexists. split; [reflexivity|].
      destruct (eq_str "text" (get_or kv "type" JNull)) eqn:Et; [|reflexivity].
      apply eq_str_text_truthy in Et. congruence. }
  rewrite (bind_ok _ _ _ _ _ (when_add_error_run _ _ s)).
  rewrite (bind_ok _ _ _ _ _ (when_add_error_run _ _ _)).
  rewrite (bind_ok _ _ _ _ _ (when_options_run _ _ _ _ _)).
  match goal with
  | |- exists s', when ?b ?m ?s0 = _ /\ _ =>
      assert (D : exists s', when b m s0 = (s', Ok tt) /\ errors s' = errors s0)
  end.
  { destruct (eq_str "date" _); [|eexists; split; reflexivity].
    destruct (get_or kv "value" (JStr "")); try (eexists; split; reflexivity).
    cbv [when]. destruct (_ && _); eexists; split; reflexivity. }
  destruct D as (s4 & E4 & R4). exists s4. split; [exact E4|].
  eexists. split.
  - rewrite R4. unfold with_errors. simpl. rewrite <- !app_assoc. reflexivity.
  - rewrite !filter_app.
    repeat match goal with |- context [if ?b then _ else _] => destruct b end;
      cbn [filter is_option_error app]; rewrite ?option_errors_all, ?app_nil_r; reflexivity.
Qed.

Lemma params_loop_option_errors wid l : forall s,
  exists s', for_ l (validate_param wid) s = (s', Ok tt) /\
  exists new, errors s' = errors s ++ new /\
              filter is_option_error new = flat_map (param_option_errors wid) l.
Proof.
  induction l as [|q l IH]; intros s.
  - exists s. split; [reflexivity|]. exists []. split; [now rewrite app_nil_r | reflexivity].
  - destruct (validate_param_option_errors wid q s) as (s1 & E1 & n1 & R1 & F1).
    destruct (IH s1) as (s2 & E2 & n2 & R2 & F2).
    exists s2. split; [simpl; rewrite (bind_ok _ _ _ _ _ E1); exact E2|].
    exists (n1 ++ n2). split.
    + rewrite R2, R1, app_assoc. reflexivity.
    + simpl. rewrite filter_app, F1, F2. reflexivity.
Qed.

(** C8, amended.  For any [params] value of a widget, [_validate_params]
    returns, and the option errors it appends are exactly, in order, those
    of the flattened parameters that are objects carrying a [paramName],
    of type ["text"] and with an [options] key: one error when [options]
    is not a list, otherwise one error for each option that is not an
    object or has no [value] key, in list order.  Every other parameter
    (any other type, string or not, no type, no [paramName], not an
    object) adds no option error, whatever its options are. *)
Theorem text_param_options_errors :
  forall wid params s,
  exists s', validate_params wid params s = (s', Ok tt) /\
  exists new, errors s' = errors s ++ new /\
              filter is_option_error new = params_option_errors wid params.
Proof.
  intros wid params s. destruct params as [| | | |ps|];
    try (exists s; split; [reflexivity | exists []; split; [now rewrite app_nil_r | reflexivity]]).
  apply params_loop_option_errors.
Qed.

Definition mixed_params : json :=
  JArr [JArr [JObj (param_kv "text"
                 (JArr [JNum 5; JObj [("label", JStr "a")]; JObj [("value", JStr "b")]]));
              JObj (param_kv "endpoint" (JArr [JNum 1]))];
        JObj (param_kv "date" (JStr "x"));
        JObj [("type", JStr "text"); ("options", JArr [JNum 1])];
        JObj (param_kv "text" (JStr "no list"))].

Lemma text_param_options_errors_witness :
  exists s', validate_params "w" mixed_params init = (s', Ok tt) /\
  exists new, errors s' = errors init ++ new /\
    filter is_option_error new =
    [ErrOptionNotObject "w" (JStr "p") 0; ErrOptionMissingValue "w" (JStr "p") 1;
     ErrOptionsNotArray "w" (JStr "p")].
Proof. exact (text_param_options_errors "w" mixed_params init). Defined.

(** ** C9 *)

Definition refetch_widget (refetch : json) : json :=
  JObj [("name", JStr "W"); ("type", JStr "markdown"); ("endpoint", JStr "w1");
        ("refetchInterval", refetch)].

(** C9: the refresh-interval check. A boolean, [true] included, is taken
    as the number 0 or 1: it never gets the wrong-type error, and gets the
    low-interval warning; a string gets the wrong-type error; a number
    below 1000 gets the warning and no error; [null] is treated as absent.
    On a whole widget, [refetchInterval: true] leaves the error list
    empty. *)
Theorem refetch_interval_checks :
  (forall wid b s,
     validate_refetch wid (JBool b) s =
     (mkState (errors s) (warnings s ++ [WarnRefetchLow wid (JBool b)])
              (widget_ids s) (endpoint_names s), Ok tt)) /\
  (forall wid str s,
     validate_refetch wid (JStr str) s = (with_errors s [ErrRefetchType wid], Ok tt)) /\
  (forall wid z s, z < 1000 ->
     validate_refetch wid (JNum z) s =
     (mkState (errors s) (warnings s ++ [WarnRefetchLow wid (JNum z)])
              (widget_ids s) (endpoint_names s), Ok tt)) /\
  (forall wid s, validate_refetch wid JNull s = (s, Ok tt)) /\
  validate_widget "w1" (refetch_widget (JBool true)) init =
  (mkState [] [WarnRefetchLow "w1" (JBool true)] [] [], Ok tt).
Proof.
  split; [|split; [|split; [|split]]].
  - intros wid b s. destruct b; reflexivity.
  - reflexivity.
  - intros wid z s Hz. unfold validate_refetch. simpl.
    apply Z.ltb_lt in Hz. now rewrite Hz.
  - reflexivity.
  - reflexivity.
Qed.

End WidgetProofs.

(** * Proofs about the top-level [validate] calls *)

Module TopLevelProofs.

Lemma apps_errors_empty_iff s s' b :
  AppsValidator.errors_empty s = (s', Ok b) ->
  (b = true <-> AppsValidator.errors s' = []).
Proof.
  cbv [AppsValidator.errors_empty bind gets ret]. intros H. inversion H; subst.
  destruct (AppsValidator.errors s'); split; congruence.
Qed.

Lemma apps_error_then_false m s s' b :
  (AppsValidator.add_error m;; ret false) s = (s', Ok b) ->
  (b = true <-> AppsValidator.errors s' = []).
Proof.
  cbv [AppsValidator.add_error modify bind ret]. intros H. inversion H; subst.
  simpl. split; [discriminate | intros E; now apply app_eq_nil in E as [_ ?]].
Qed.

Lemma widgets_errors_empty_iff s s' b :
  WidgetValidator.errors_empty s = (s', Ok b) ->
  (b = true <-> WidgetValidator.errors s' = []).
Proof.
  cbv [WidgetValidator.errors_empty bind gets ret]. intros H. inversion H; subst.
  destruct (WidgetValidator.errors s'); split; congruence.
Qed.

Lemma widgets_error_then_false m s s' b :
  (WidgetValidator.add_error m;; ret false) s = (s', Ok b) ->
  (b = true <-> WidgetValidator.errors s' = []).
Proof.
  cbv [WidgetValidator.add_error modify bind ret]. intros H. inversion H; subst.
  simpl. split; [discriminate | intros E; now apply app_eq_nil in E as [_ ?]].
Qed.

(** C5: on a fresh validator, as [main] creates one, every run of either
    [validate] that returns a result (rather than raising) returns [True]
    exactly when its error list is empty, on every return path: missing
    or unparseable document, wrong top-level type, empty registry, and the
    full run. *)
Theorem validate_success_iff_no_errors :
  (forall f s' b,
     WidgetValidator.validate f WidgetValidator.init = (s', Ok b) ->
     (b = true <-> WidgetValidator.errors s' = [])) /\
  (forall wf af s' b,
     AppsValidator.validate wf af AppsValidator.init = (s', Ok b) ->
     (b = true <-> AppsValidator.errors s' = [])).
Proof.
  split.
  - intros f s' b H. unfold WidgetValidator.validate in H.
    destruct f as [| |j]; try (eapply widgets_error_then_false; exact H).
    destruct j as [| | | | |kv]; try (eapply widgets_error_then_false; exact H).
    destruct kv as [|e kv].
    + cbv [bind ret WidgetValidator.add_warning modify] in H.
      inversion H; subst. simpl. split; auto.
    + peel H s1 a1 H1. peel H s2 a2 H2.
      eapply widgets_errors_empty_iff; exact H.
  - intros wf af s' b H. unfold AppsValidator.validate in H.
    destruct af as [| |apps].
    + cbv [bind ret AppsValidator.add_warning modify] in H.
      inversion H; subst. simpl. split; auto.
    + peel H s1 a1 H1. eapply apps_error_then_false; exact H.
    + peel H s1 a1 H1.
      destruct apps as [| | | |l|kv]; try (eapply apps_error_then_false; exact H).
      peel H s2 a2 H2. peel H s3 a3 H3.
      eapply apps_errors_empty_iff; exact H.
Qed.

Definition good_widgets : json :=
  JObj [("w1", JObj [("name", JStr "W"); ("type", JStr "markdown");
                     ("endpoint", JStr "w1")])].

Definition good_apps : json :=
  JArr [JObj [("name", JStr "A"); ("description", JStr "d");
              ("tabs", JObj [("t", JObj [("name", JStr "T"); ("id", JStr "t");
                 ("layout", JArr [JObj [("i", JStr "w1")]])])])]].

Lemma validate_success_iff_no_errors_witness :
  snd (WidgetValidator.validate (FileJson good_widgets) WidgetValidator.init)
    = Ok true /\
  (true = true <-> WidgetValidator.errors
     (fst (WidgetValidator.validate (FileJson good_widgets) WidgetValidator.init))
     = []) /\
  snd (AppsValidator.validate (FileJson good_widgets) FileBadJson AppsValidator.init)
    = Ok false /\
  (false = true <-> AppsValidator.errors
     (fst (AppsValidator.validate (FileJson good_widgets) FileBadJson
             AppsValidator.init)) = []) /\
  snd (AppsValidator.validate (FileJson good_widgets) (FileJson good_apps)
         AppsValidator.init) = Ok true /\
  (true = true <-> AppsValidator.errors
     (fst (AppsValidator.validate (FileJson good_widgets) (FileJson good_apps)
             AppsValidator.init)) = []).
Proof.
  split; [reflexivity|]. split.
  { apply (proj1 validate_success_iff_no_errors (FileJson good_widgets)).
    reflexivity. }
  split; [reflexivity|]. split.
  { apply (proj2 validate_success_iff_no_errors (FileJson good_widgets)
             FileBadJson).
    reflexivity. }
  split; [reflexivity|].
  apply (proj2 validate_success_iff_no_errors (FileJson good_widgets)
           (FileJson good_apps)).
  reflexivity.
Defined.

Definition bad_coord_apps : json :=
  JArr [JObj [("name", JStr "A"); ("description", JStr "d");
              ("tabs", JObj [("t", JObj [("name", JStr "T"); ("id", JStr "t");
                 ("layout", JArr [JObj [("i", JStr "w1"); ("x", JStr "a")]])])])]].

(** C1: well-formed but invalid documents make [validate] raise. An app
    whose layout item has [x = "a"] gets the must-be-a-number error and
    then raises TypeError at [x < 0]; a widget registry mapping an id to
    the number 5 raises TypeError at ["endpoint" in widget]; one mapping
    an id to a string raises AttributeError at [widget.get("type")]. *)
Theorem validate_raises_on_invalid_content :
  AppsValidator.validate (FileJson good_widgets) (FileJson bad_coord_apps)
    AppsValidator.init =
  (AppsValidator.mkState
     [AppsValidator.ErrCoordNotNumber
        [AppsValidator.SApp 0; AppsValidator.STabs "t"; AppsValidator.SLayout 0] "x"]
     [] [JStr "w1"] 0, Raise TypeError) /\
  snd (WidgetValidator.validate (FileJson (JObj [("w1", JNum 5)]))
         WidgetValidator.init) = Raise TypeError /\
  snd (WidgetValidator.validate (FileJson (JObj [("w1", JStr "abc")]))
         WidgetValidator.init) = Raise AttributeError.
Proof. split; [|split]; reflexivity. Qed.

End TopLevelProofs.

(** * Computations that always raise *)

Section Raises.
Context {St : Type}.

Definition raises {A} (m : M St A) : Prop :=
  forall s, exists s' e, m s = (s', Raise e).

Lemma raises_raise {A} e : raises (A := A) (raise e).
Proof. intros s. exists s, e. reflexivity. Qed.

Lemma raises_bind_l {A B} (m : M St A) (f : A -> M St B) :
  raises m -> raises (bind m f).
Proof.
  intros Hm s. destruct (Hm s) as (s' & e & E). exists s', e.
  exact (bind_raise _ _ _ _ _ E).
Qed.

Lemma raises_bind_r {A B} (m : M St A) (f : A -> M St B) :
  (forall a, raises (f a)) -> raises (bind m f).
Proof.
  intros Hf s. unfold bind. destruct (m s) as [s1 [a|e]].
  - apply Hf.
  - exists s1, e. reflexivity.
Qed.

Lemma raises_for {A} (l : list A) body :
  (exists x, In x l /\ raises (body x)) -> raises (for_ l body).
Proof.
  intros (x & Hin & Hx). induction l as [|y l IH]; [destruct Hin|]. simpl.
  destruct Hin as [<-|Hin].
  - apply raises_bind_l, Hx.
  - apply raises_bind_r. intros _. apply IH, Hin.
Qed.

Lemma raises_for_enum {A} (l : list A) body : forall n,
  (exists x, In x l /\ forall i, raises (body i x)) -> raises (for_enum n l body).
Proof.
  intros n (x & Hin & Hx). revert n. induction l as [|y l IH]; [destruct Hin|].
  intros n. simpl. destruct Hin as [<-|Hin].
  - apply raises_bind_l, Hx.
  - apply raises_bind_r. intros _. apply IH, Hin.
Qed.

End Raises.

(** * Further properties of the app/layout validator *)

Module AppsExtra.
Import AppsValidator.

(** ** The diagnostics lists only grow *)

(** The errors and warnings of the start state are prefixes of those of
    the end state, and the layout counter does not go down. *)
Definition grows (s s' : state) : Prop :=
  (exists e, errors s' = errors s ++ e) /\
  (exists w, warnings s' = warnings s ++ w) /\
  (layouts_validated s <= layouts_validated s')%nat.

#[export] Instance grows_refl : Reflexive grows.
Proof.
  intros s. split; [|split]; [exists [] | exists [] | ]; rewrite ?app_nil_r; auto.
Qed.

#[export] Instance grows_trans : Transitive grows.
Proof.
  intros s1 s2 s3 [(e1 & E1) [(w1 & W1) L1]] [(e2 & E2) [(w2 & W2) L2]].
  split; [|split].
  - exists (e1 ++ e2). now rewrite E2, E1, app_assoc.
  - exists (w1 ++ w2). now rewrite W2, W1, app_assoc.
  - lia.
Qed.

Lemma grows_add_error m : keeps grows (add_error m).
Proof.
  intros s s' r H. inversion H; subst.
  split; [exists [m] | split; [exists [] | ]]; simpl; rewrite ?app_nil_r; auto.
Qed.

Lemma grows_add_warning m : keeps grows (add_warning m).
Proof.
  intros s s' r H. inversion H; subst.
  split; [exists [] | split; [exists [m] | ]]; simpl; rewrite ?app_nil_r; auto.
Qed.

Lemma grows_set_widget_ids ids : keeps grows (set_widget_ids ids).
Proof.
  intros s s' r H. inversion H; subst.
  split; [exists [] | split; [exists [] | ]]; simpl; rewrite ?app_nil_r; auto.
Qed.

Lemma grows_incr_layouts : keeps grows incr_layouts.
Proof.
  intros s s' r H. inversion H; subst.
  split; [exists [] | split; [exists [] | ]]; simpl; rewrite ?app_nil_r; auto.
Qed.

Lemma grows_check_overlaps p wid x y w h ps :
  keeps grows (check_overlaps p wid x y w h ps).
Proof.
  induction ps as [|o ps IH]; simpl.
  - apply keeps_ret; exact _.
  - destruct (rectangles_overlap _ _ _ _ _ _ _ _);
      [apply grows_add_warning | exact IH].
Qed.

Ltac grows_prim :=
  first [ apply keeps_ret; exact _ | apply keeps_raise; exact _
        | apply keeps_gets; exact _
        | apply keeps_as_num; exact _ | apply keeps_py_set_mem; exact _
        | apply keeps_py_set_add; exact _
        | apply keeps_py_get; exact _ | apply keeps_py_contains; exact _
        | apply keeps_py_getitem; exact _
        | apply grows_add_error | apply grows_add_warning
        | apply grows_set_widget_ids | apply grows_incr_layouts
        | apply grows_check_overlaps ].

Lemma grows_validate_layout_item p item ps :
  keeps grows (validate_layout_item p item ps).
Proof.
  unfold validate_layout_item, check_widget_ref, item_position_checks,
    type_checks, range_checks, bounds_check, validate_widget_state,
    item_groups_check.
  repeat (keeps_steps; grows_prim).
Qed.

Lemma grows_layout_loop p items : forall i ps,
  keeps grows (layout_loop p i items ps).
Proof.
  induction items as [|it items IH]; intros i ps; simpl.
  - apply keeps_ret; exact _.
  - apply keeps_bind; try tc; [apply grows_validate_layout_item | intro; apply IH].
Qed.

Lemma grows_validate_tab p tab : keeps grows (validate_tab p tab).
Proof.
  unfold validate_tab.
  repeat (keeps_steps; first [grows_prim | apply grows_layout_loop]).
Qed.

Lemma grows_validate_group p g : keeps grows (validate_group p g).
Proof. unfold validate_group. repeat (keeps_steps; grows_prim). Qed.

Lemma grows_validate_app p app : keeps grows (validate_app p app).
Proof.
  unfold validate_app.
  repeat (keeps_steps;
          first [grows_prim | apply grows_validate_tab | apply grows_validate_group]).
Qed.

Lemma grows_id_set_of_list ws : forall acc, keeps grows (id_set_of_list ws acc).
Proof.
  induction ws as [|w ws IH]; intros acc; simpl.
  - apply keeps_ret; exact _.
  - repeat (keeps_steps; first [grows_prim | apply IH]).
Qed.

Lemma grows_validate wf af : keeps grows (validate wf af).
Proof.
  unfold validate, load_widget_ids, errors_empty.
  repeat (keeps_steps;
          first [grows_prim | apply grows_validate_app | apply grows_id_set_of_list]).
Qed.

(** ** No reference errors without known widgets *)

Definition is_ref_error (m : msg) : bool :=
  match m with
  | ErrWidgetNotFound _ _ | ErrGroupUnknownWidget _ _ => true
  | _ => false
  end.

(** The widget-id set is unchanged, and while it is empty no reference
    error is appended. *)
Definition noref (s s' : state) : Prop :=
  widget_ids s' = widget_ids s /\
  (widget_ids s = [] ->
   exists new, errors s' = errors s ++ new /\
               forallb (fun m => negb (is_ref_error m)) new = true).

#[export] Instance noref_refl : Reflexive noref.
Proof. intros s. split; [reflexivity | intros _; exists []; rewrite app_nil_r; auto]. Qed.

#[export] Instance noref_trans : Transitive noref.
Proof.
  intros s1 s2 s3 [I1 N1] [I2 N2]. split; [congruence|].
  intros E. destruct (N1 E) as (n1 & E1 & Q1).
  destruct (N2 ltac:(congruence)) as (n2 & E2 & Q2).
  exists (n1 ++ n2). rewrite E2, E1, app_assoc, forallb_app, Q1, Q2. auto.
Qed.

Lemma noref_add_error m : is_ref_error m = false -> keeps noref (add_error m).
Proof.
  intros Hm s s' r H. inversion H; subst. split; [reflexivity|].
  intros _. exists [m]. simpl. rewrite Hm. auto.
Qed.

Lemma noref_add_warning m : keeps noref (add_warning m).
Proof.
  intros s s' r H. inversion H; subst. split; [reflexivity|].
  intros _. exists []. simpl. rewrite app_nil_r. auto.
Qed.

Lemma noref_incr_layouts : keeps noref incr_layouts.
Proof.
  intros s s' r H. inversion H; subst. split; [reflexivity|].
  intros _. exists []. simpl. rewrite app_nil_r. auto.
Qed.

Lemma noref_check_overlaps p wid x y w h ps :
  keeps noref (check_overlaps p wid x y w h ps).
Proof.
  induction ps as [|o ps IH]; simpl.
  - apply keeps_ret; exact _.
  - destruct (rectangles_overlap _ _ _ _ _ _ _ _);
      [apply noref_add_warning | exact IH].
Qed.

(** A run that leaves the widget-id set alone is [noref] from any state
    whose set is non-empty. *)
Definition ids_same (s s' : state) : Prop := widget_ids s' = widget_ids s.

#[export] Instance ids_same_refl : Reflexive ids_same.
Proof. intros s. reflexivity. Qed.

#[export] Instance ids_same_trans : Transitive ids_same.
Proof. intros s1 s2 s3 H1 H2. unfold ids_same in *. congruence. Qed.

Lemma ids_same_add_error m : keeps ids_same (add_error m).
Proof. intros s s' r H. inversion H; subst. reflexivity. Qed.

Lemma noref_of_ids_same {A} (m : AM A) s s' r x l :
  keeps ids_same m -> widget_ids s = x :: l -> m s = (s', r) -> noref s s'.
Proof.
  intros Hm E H. split; [exact (Hm _ _ _ H) | intros E'; congruence].
Qed.

Lemma noref_check_widget_ref p wid : keeps noref (check_widget_ref p wid).
Proof.
  intros s s' r H. unfold check_widget_ref in H.
  apply bind_inv in H as [(s1 & ids & H1 & H2) | (e & H1 & _)];
    inversion H1; subst.
  destruct (widget_ids s1) as [|x l] eqn:E.
  - inversion H2; subst. reflexivity.
  - eapply noref_of_ids_same; [ | exact E | exact H2].
    keeps_steps; first [apply keeps_py_set_mem; exact _ | apply ids_same_add_error
                        | apply keeps_ret; exact _].
Qed.

Lemma noref_gets_ids {A} (f : list json -> AM A) :
  keeps noref (f []) -> (forall x l, keeps ids_same (f (x :: l))) ->
  keeps noref (bind (gets widget_ids) f).
Proof.
  intros H0 H1 s s' r H.
  apply bind_inv in H as [(s1 & ids & E1 & H2) | (e & E1 & _)];
    inversion E1; subst.
  destruct (widget_ids s1) as [|x l] eqn:E.
  - exact (H0 _ _ _ H2).
  - eapply noref_of_ids_same; [apply H1 | exact E | exact H2].
Qed.

Lemma noref_validate_group p g : keeps noref (validate_group p g).
Proof.
  unfold validate_group.
  repeat (match goal with
          | |- keeps _ (bind (gets widget_ids) _) =>
              apply noref_gets_ids; intros; simpl;
              [ apply keeps_for; try tc; intro; apply keeps_ret; exact _
              | apply keeps_for; try tc; intro;
                repeat (keeps_steps; first [apply keeps_py_set_mem; exact _
                                           | apply ids_same_add_error
                                           | apply keeps_ret; exact _]) ]
          | |- keeps _ (bind _ _) => apply keeps_bind; try tc; [ | intro ]
          | |- keeps _ (when _ _) => apply keeps_when; try tc
          | |- keeps _ (match ?x with _ => _ end) => destruct x
          end;
          try (apply noref_add_error; reflexivity);
          try apply noref_add_warning; try (apply keeps_ret; exact _)).
Qed.

Ltac noref_prim :=
  first [ apply keeps_ret; exact _ | apply keeps_raise; exact _
        | apply keeps_gets; exact _
        | apply keeps_as_num; exact _ | apply keeps_py_set_mem; exact _
        | apply keeps_py_set_add; exact _
        | apply keeps_py_get; exact _ | apply keeps_py_contains; exact _
        | apply keeps_py_getitem; exact _
        | apply noref_add_error; reflexivity | apply noref_add_warning
        | apply noref_incr_layouts | apply noref_check_overlaps
        | apply noref_check_widget_ref | apply noref_validate_group ].

Lemma noref_validate_layout_item p item ps :
  keeps noref (validate_layout_item p item ps).
Proof.
  unfold validate_layout_item, item_position_checks,
    type_checks, range_checks, bounds_check, validate_widget_state,
    item_groups_check.
  repeat (keeps_steps; noref_prim).
Qed.

Lemma noref_layout_loop p items : forall i ps,
  keeps noref (layout_loop p i items ps).
Proof.
  induction items as [|it items IH]; intros i ps; simpl.
  - apply keeps_ret; exact _.
  - apply keeps_bind; try tc; [apply noref_validate_layout_item | intro; apply IH].
Qed.

Lemma noref_validate_tab p tab : keeps noref (validate_tab p tab).
Proof.
  unfold validate_tab.
  repeat (keeps_steps; first [noref_prim | apply noref_layout_loop]).
Qed.

Lemma noref_validate_app p app : keeps noref (validate_app p app).
Proof.
  unfold validate_app.
  repeat (keeps_steps; first [noref_prim | apply noref_validate_tab]).
Qed.

(** Loading [widgets.json] touches neither the errors nor, through
    [noref], anything the rest of the run relies on. *)
Definition errs_same (s s' : state) : Prop := errors s' = errors s.

#[export] Instance errs_same_refl : Reflexive errs_same.
Proof. intros s. reflexivity. Qed.

#[export] Instance errs_same_trans : Transitive errs_same.
Proof. intros s1 s2 s3 H1 H2. unfold errs_same in *. congruence. Qed.

Lemma errs_same_load wf : keeps errs_same (load_widget_ids wf).
Proof.
  assert (Hl : forall ws acc, keeps errs_same (id_set_of_list ws acc)).
  { induction ws as [|w ws IH]; intros acc; simpl.
    - apply keeps_ret; exact _.
    - repeat (keeps_steps; first [apply keeps_py_get; exact _
                                 | apply keeps_py_set_add; exact _ | apply IH]). }
  unfold load_widget_ids, set_widget_ids, add_warning.
  destruct wf as [| |j]; [apply keeps_ret; exact _ | | destruct j];
    try (apply keeps_ret; exact _);
    try (intros s s' r H; inversion H; subst; reflexivity).
  apply keeps_bind; try tc; [apply Hl | intros ids s s' r H; inversion H; reflexivity].
Qed.

Lemma noref_after_load wf (m : AM bool) s' r :
  keeps noref m ->
  (load_widget_ids wf;; m) init = (s', r) ->
  widget_ids s' = [] ->
  forallb (fun m => negb (is_ref_error m)) (errors s') = true.
Proof.
  intros Hm H Hids.
  apply bind_inv in H as [(s1 & a & H1 & H2) | (e & H1 & _)].
  - pose proof (errs_same_load _ _ _ _ H1) as E1.
    destruct (Hm _ _ _ H2) as [I N].
    destruct (N ltac:(congruence)) as (new & E & Q).
    rewrite E, E1. exact Q.
  - pose proof (errs_same_load _ _ _ _ H1) as E1. unfold errs_same in E1.
    rewrite E1. reflexivity.
Qed.

(** X1: every run of [AppsValidator.validate], from any state and whether
    it returns or raises, only appends to the error and warning lists and
    never decreases the count of validated tab layouts. *)
Theorem apps_validate_diagnostics_only_grow :
  forall wf af s s' r,
  validate wf af s = (s', r) ->
  (exists e, errors s' = errors s ++ e) /\
  (exists w, warnings s' = warnings s ++ w) /\
  (layouts_validated s <= layouts_validated s')%nat.
Proof. intros wf af s s' r H. exact (grows_validate wf af s s' r H). Qed.

Definition unknown_refs_doc : json :=
  JArr [JObj [("name", JStr "A");
              ("tabs", JObj [("t", JObj [("name", JStr "T"); ("id", JStr "t");
                 ("layout", JArr [JObj [("i", JStr "zzz")]])])]);
              ("groups", JArr [JObj [("name", JStr "g"); ("paramName", JStr "q");
                                     ("widgetIds", JArr [JStr "zzz"])]])]].

Lemma apps_validate_diagnostics_only_grow_witness :
  exists e, errors (fst (validate FileMissing (FileJson unknown_refs_doc) init))
            = errors init ++ e.
Proof.
  exact (proj1 (apps_validate_diagnostics_only_grow FileMissing
                  (FileJson unknown_refs_doc) init _ _ eq_refl)).
Defined.

(** X2: a run of [AppsValidator.validate] from a fresh validator that ends
    with an empty known-widget set (widgets.json absent, unparseable, of
    another type, or with no ids) never reports an unresolved widget
    reference, neither for a layout item nor for a group. *)
Theorem apps_no_reference_errors_without_ids :
  forall wf af s' r,
  validate wf af init = (s', r) ->
  widget_ids s' = [] ->
  forallb (fun m => negb (is_ref_error m)) (errors s') = true.
Proof.
  intros wf af s' r H Hids. unfold validate in H.
  destruct af as [| |apps].
  - inversion H; subst. reflexivity.
  - eapply noref_after_load; [ | exact H | exact Hids].
    apply keeps_bind; try tc; [apply noref_add_error; reflexivity | intro].
    apply keeps_ret; exact _.
  - eapply noref_after_load; [ | exact H | exact Hids].
    unfold errors_empty.
    repeat (keeps_steps; first [noref_prim | apply noref_validate_app]).
Qed.

Lemma apps_no_reference_errors_without_ids_witness :
  widget_ids (fst (validate FileMissing (FileJson unknown_refs_doc) init)) = [] /\
  forallb (fun m => negb (is_ref_error m))
    (errors (fst (validate FileMissing (FileJson unknown_refs_doc) init))) = true.
Proof.
  split; [reflexivity|].
  apply (apps_no_reference_errors_without_ids FileMissing (FileJson unknown_refs_doc)
           _ (snd (validate FileMissing (FileJson unknown_refs_doc) init)));
    reflexivity.
Defined.

(** ** The group reference check *)

Definition app_with_errors (s : state) (new : list msg) : state :=
  mkState (errors s ++ new) (warnings s) (widget_ids s) (layouts_validated s).

Definition group_refs_body (p : prefix) (ids : list json) (wid : json) : AM unit :=
  match ids with
  | [] => ret tt
  | _ :: _ =>
      mem <- py_set_mem wid ids;;
      when (negb mem) (add_error (ErrGroupUnknownWidget p wid))
  end.

(** The widget ids of a group that are not in the known set. *)
Definition unknown_ids (ids wids : list json) : list json :=
  filter (fun w => negb (existsb (py_heq w) ids)) wids.

Lemma group_refs_ok p x l wids : forall s,
  forallb hashable wids = true ->
  for_ wids (group_refs_body p (x :: l)) s =
  (app_with_errors s (map (ErrGroupUnknownWidget p) (unknown_ids (x :: l) wids)),
   Ok tt).
Proof.
  unfold unknown_ids.
  induction wids as [|w wids IH]; intros s H; cbn [for_ forallb filter map] in *.
  - destruct s. unfold app_with_errors, ret. simpl. now rewrite app_nil_r.
  - apply andb_prop in H as [Hw H].
    unfold group_refs_body at 1, py_set_mem. rewrite Hw. cbv [bind ret when].
    destruct (existsb (py_heq w) (x :: l)); cbn [negb];
      [exact (IH s H) | cbv [add_error modify]; rewrite IH by exact H].
    unfold app_with_errors. simpl. now rewrite <- app_assoc.
Qed.

Lemma group_refs_raise p x l wids : forall s,
  (exists w, In w wids /\ hashable w = false) ->
  snd (for_ wids (group_refs_body p (x :: l)) s) = Raise TypeError.
Proof.
  induction wids as [|w wids IH]; intros s (v & Hin & Hv); [destruct Hin|].
  cbn [for_]. unfold group_refs_body at 1, py_set_mem.
  destruct (hashable w) eqn:Hw.
  - destruct Hin as [<-|Hin]; [congruence|]. cbv [bind ret when].
    destruct (existsb (py_heq w) (x :: l)); cbn [negb];
      apply IH; exists v; auto.
  - reflexivity.
Qed.

Lemma group_refs_empty p wids : forall s,
  for_ wids (group_refs_body p []) s = (s, Ok tt).
Proof.
  induction wids as [|w wids IH]; intros s; [reflexivity|].
  cbn [for_ group_refs_body]. cbv [bind ret]. apply IH.
Qed.

Lemma validate_group_prefix p kv wids s :
  get_or kv "widgetIds" (JArr []) = JArr wids -> wids <> [] ->
  exists s1,
    validate_group p (JObj kv) s = for_ wids (group_refs_body p (widget_ids s)) s1 /\
    errors s1 = errors s ++ (if has_key kv "name" then [] else [ErrMissingGroupName p]) /\
    widget_ids s1 = widget_ids s.
Proof.
  intros Hw Hne. unfold validate_group. cbv zeta. rewrite Hw.
  destruct wids as [|w0 ws]; [congruence|]. cbn [truthy negb].
  destruct (has_key kv "name"), (truthy (get_or kv "type" JNull) && _),
    (has_key kv "paramName");
    cbv [bind when ret gets add_error add_warning modify]; cbn [negb];
    (eexists; split; [reflexivity | simpl; rewrite ?app_nil_r; auto]).
Qed.

(** X3: the group reference check. For a group object whose [widgetIds]
    is a non-empty list: with no known widget ids no reference is
    checked; with known ids and hashable entries, one unknown-widget
    error is appended for each entry not in the set (in list order,
    repeats included, [1] and [true] counting as equal), after the
    missing-name error if any; and an unhashable entry (a list or an
    object) makes the check raise TypeError. *)
Theorem group_reference_errors :
  forall p kv wids s,
  get_or kv "widgetIds" (JArr []) = JArr wids -> wids <> [] ->
  let pre := if has_key kv "name" then [] else [ErrMissingGroupName p] in
  (widget_ids s = [] ->
   snd (validate_group p (JObj kv) s) = Ok tt /\
   errors (fst (validate_group p (JObj kv) s)) = errors s ++ pre) /\
  (widget_ids s <> [] -> forallb hashable wids = true ->
   snd (validate_group p (JObj kv) s) = Ok tt /\
   errors (fst (validate_group p (JObj kv) s)) =
   errors s ++ pre ++ map (ErrGroupUnknownWidget p) (unknown_ids (widget_ids s) wids)) /\
  (widget_ids s <> [] -> (exists w, In w wids /\ hashable w = false) ->
   snd (validate_group p (JObj kv) s) = Raise TypeError).
Proof.
  intros p kv wids s Hw Hne pre.
  destruct (validate_group_prefix p kv wids s Hw Hne) as (s1 & E & Herr & Hids).
  rewrite E. split; [|split].
  - intros H0. rewrite H0, group_refs_empty. auto.
  - intros H0 Hh. destruct (widget_ids s) as [|x l] eqn:Ex; [congruence|].
    rewrite group_refs_ok by exact Hh. simpl. rewrite Herr, app_assoc. auto.
  - intros H0 Hh. destruct (widget_ids s) as [|x l] eqn:Ex; [congruence|].
    apply group_refs_raise. exact Hh.
Qed.

Definition group_kv : list (string * json) :=
  [("name", JStr "g"); ("widgetIds", JArr [JStr "w1"; JStr "zz"; JNum 1; JStr "zz"])].

Lemma group_reference_errors_witness :
  snd (validate_group [] (JObj group_kv) (mkState [] [] [JStr "w1"; JBool true] 0))
    = Ok tt /\
  errors (fst (validate_group [] (JObj group_kv)
                 (mkState [] [] [JStr "w1"; JBool true] 0))) =
  [ErrGroupUnknownWidget [] (JStr "zz"); ErrGroupUnknownWidget [] (JStr "zz")].
Proof.
  apply (proj1 (proj2 (group_reference_errors [] group_kv
           [JStr "w1"; JStr "zz"; JNum 1; JStr "zz"]
           (mkState [] [] [JStr "w1"; JBool true] 0) eq_refl ltac:(discriminate))));
    [discriminate | reflexivity].
Defined.

(** ** The tab-layout counter *)

Definition lay_same (s s' : state) : Prop :=
  layouts_validated s' = layouts_validated s.

#[export] Instance lay_same_refl : Reflexive lay_same.
Proof. intros s. reflexivity. Qed.

#[export] Instance lay_same_trans : Transitive lay_same.
Proof. intros s1 s2 s3 H1 H2. unfold lay_same in *. congruence. Qed.

Lemma lay_add_error m : keeps lay_same (add_error m).
Proof. intros s s' r H. inversion H; subst. reflexivity. Qed.

Lemma lay_add_warning m : keeps lay_same (add_warning m).
Proof. intros s s' r H. inversion H; subst. reflexivity. Qed.

Lemma lay_set_widget_ids ids : keeps lay_same (set_widget_ids ids).
Proof. intros s s' r H. inversion H; subst. reflexivity. Qed.

Lemma lay_check_overlaps p wid x y w h ps :
  keeps lay_same (check_overlaps p wid x y w h ps).
Proof.
  induction ps as [|o ps IH]; simpl.
  - apply keeps_ret; exact _.
  - destruct (rectangles_overlap _ _ _ _ _ _ _ _);
      [apply lay_add_warning | exact IH].
Qed.

Ltac lay_prim :=
  first [ apply keeps_ret; exact _ | apply keeps_raise; exact _
        | apply keeps_gets; exact _
        | apply keeps_as_num; exact _ | apply keeps_py_set_mem; exact _
        | apply keeps_py_set_add; exact _
        | apply keeps_py_get; exact _ | apply keeps_py_contains; exact _
        | apply keeps_py_getitem; exact _
        | apply lay_add_error | apply lay_add_warning | apply lay_set_widget_ids
        | apply lay_check_overlaps ].

Lemma lay_layout_loop p items : forall i ps,
  keeps lay_same (layout_loop p i items ps).
Proof.
  induction items as [|it items IH]; intros i ps; simpl.
  - apply keeps_ret; exact _.
  - apply keeps_bind; try tc; [ | intro; apply IH].
    unfold validate_layout_item, check_widget_ref, item_position_checks,
      type_checks, range_checks, bounds_check, validate_widget_state,
      item_groups_check.
    repeat (keeps_steps; lay_prim).
Qed.

Lemma lay_validate_group p g : keeps lay_same (validate_group p g).
Proof. unfold validate_group. repeat (keeps_steps; lay_prim). Qed.

Lemma lay_id_set_of_list ws : forall acc, keeps lay_same (id_set_of_list ws acc).
Proof.
  induction ws as [|w ws IH]; intros acc; simpl.
  - apply keeps_ret; exact _.
  - repeat (keeps_steps; first [lay_prim | apply IH]).
Qed.

(** Runs that return add exactly [n] to the counter. *)
Definition adds {A} (n : nat) (m : AM A) : Prop :=
  forall s s' a, m s = (s', Ok a) ->
  layouts_validated s' = (layouts_validated s + n)%nat.

Lemma adds_of_keeps {A} (m : AM A) : keeps lay_same m -> adds 0 m.
Proof. intros H s s' a E. rewrite (H _ _ _ E). lia. Qed.

Lemma adds_bind0_l {A B} n (m : AM A) (f : A -> AM B) :
  keeps lay_same m -> (forall a, adds n (f a)) -> adds n (bind m f).
Proof.
  intros Hm Hf s s' b H. peel H s1 a1 H1.
  rewrite (Hf _ _ _ _ H). rewrite (Hm _ _ _ H1). reflexivity.
Qed.

Lemma adds_bind0_r {A B} n (m : AM A) (f : A -> AM B) :
  adds n m -> (forall a, keeps lay_same (f a)) -> adds n (bind m f).
Proof.
  intros Hm Hf s s' b H. peel H s1 a1 H1.
  rewrite (Hf _ _ _ _ H). exact (Hm _ _ _ H1).
Qed.

Lemma adds_for {A} (l : list A) (g : A -> nat) body :
  (forall x, adds (g x) (body x)) ->
  adds (list_sum (map g l)) (for_ l body).
Proof.
  intros Hb. induction l as [|x l IH]; simpl.
  - intros s s' a H. inversion H; subst. lia.
  - intros s s' a H. peel H s1 a1 H1.
    rewrite (IH _ _ _ H), (Hb _ _ _ _ H1). lia.
Qed.

Lemma adds_for_enum {A} (l : list A) (g : A -> nat) body : forall n,
  (forall i x, adds (g x) (body i x)) ->
  adds (list_sum (map g l)) (for_enum n l body).
Proof.
  intros n Hb. revert n. induction l as [|x l IH]; intros n; simpl.
  - intros s s' a H. inversion H; subst. lia.
  - intros s s' a H. peel H s1 a1 H1.
    rewrite (IH _ _ _ _ H), (Hb _ _ _ _ _ H1). lia.
Qed.

(** A tab counts when it is an object whose [layout] is a non-empty
    list. *)
Definition tab_count (tab : json) : nat :=
  match tab with
  | JObj kv =>
      match get_or kv "layout" (JArr []) with
      | JArr (_ :: _) => 1
      | _ => 0
      end
  | _ => 0
  end.

(** An app's tabs, when [tabs] is an object. *)
Definition app_count (app : json) : nat :=
  match app with
  | JObj kv =>
      match get_or kv "tabs" (JObj []) with
      | JObj tabs => list_sum (map (fun t => tab_count (snd t)) tabs)
      | _ => 0
      end
  | _ => 0
  end.

Lemma adds_validate_tab p tab : adds (tab_count tab) (validate_tab p tab).
Proof.
  unfold validate_tab, tab_count. destruct tab as [| | | | |kv];
    try (apply adds_of_keeps, lay_add_error).
  apply adds_bind0_l; [keeps_steps; lay_prim | intro].
  apply adds_bind0_l; [keeps_steps; lay_prim | intro].
  cbv zeta. destruct (get_or kv "layout" (JArr [])) as [| | | |[|it items]|kv'];
    cbn [truthy negb];
    try (apply adds_of_keeps; solve [repeat (keeps_steps; lay_prim)]).
  apply adds_bind0_l; [apply lay_layout_loop | intro].
  intros s s' r H. inversion H; subst. simpl. lia.
Qed.

Lemma adds_bind_get {B} n kv k d (f : json -> AM B) :
  adds n (f (get_or kv k d)) -> adds n (bind (py_get (JObj kv) k d) f).
Proof. intros H s s' b E. exact (H _ _ _ E). Qed.

Lemma adds_validate_app p app : adds (app_count app) (validate_app p app).
Proof.
  unfold validate_app.
  do 5 (apply adds_bind0_l; [repeat (keeps_steps; lay_prim) | intro]).
  destruct app as [| | | | |kv];
    try (intros st st' r H; peel H st1 v1 H1; cbv [py_get raise] in H1; discriminate).
  apply adds_bind_get.
  apply adds_bind0_r;
    [ | intro; repeat (keeps_steps; first [lay_prim | apply lay_validate_group])].
  unfold app_count.
  destruct (get_or kv "tabs" (JObj [])) as [|b| | | |[|t tabs]]; cbn [truthy negb];
    try (apply adds_of_keeps; solve [repeat (keeps_steps; lay_prim)]).
  apply (adds_for (t :: tabs) (fun t => tab_count (snd t))).
  intros x. apply adds_validate_tab.
Qed.

(** Every returning run of [validate] on an apps array adds to the
    counter the number of counted tabs of its apps. *)
Lemma adds_validate wf apps :
  adds (list_sum (map app_count apps)) (validate wf (FileJson (JArr apps))).
Proof.
  unfold validate.
  apply adds_bind0_l.
  { unfold load_widget_ids. repeat (keeps_steps; first [lay_prim | apply lay_id_set_of_list]). }
  intro. apply adds_bind0_l; [repeat (keeps_steps; lay_prim) | intro].
  apply adds_bind0_r; [ | intro; unfold errors_empty; repeat (keeps_steps; lay_prim)].
  apply adds_for_enum. intros i x. apply adds_validate_app.
Qed.

(** X4: the counter printed as "Tab layouts validated". Every run of
    [validate] on an apps array that returns adds to it the number of
    tabs, over all apps that are objects with an object [tabs], that are
    objects whose [layout] is a non-empty list. *)
Theorem layouts_validated_counts_tabs :
  forall wf apps s s' b,
  validate wf (FileJson (JArr apps)) s = (s', Ok b) ->
  layouts_validated s' = (layouts_validated s + list_sum (map app_count apps))%nat.
Proof. intros wf apps s s' b H. exact (adds_validate wf apps s s' b H). Qed.

Definition two_tab_apps : list json :=
  [JObj [("name", JStr "A");
         ("tabs", JObj [("t1", JObj [("layout", JArr [JObj [("i", JStr "w1")]])]);
                        ("t2", JObj [("layout", JArr [])]);
                        ("t3", JObj [("layout", JArr [JObj [("i", JStr "w1")]])])])];
   JObj [("name", JStr "B")]].

Lemma layouts_validated_counts_tabs_witness :
  snd (validate FileMissing (FileJson (JArr two_tab_apps)) init) = Ok true /\
  layouts_validated (fst (validate FileMissing (FileJson (JArr two_tab_apps)) init))
  = 2%nat.
Proof.
  split; [reflexivity|].
  exact (layouts_validated_counts_tabs FileMissing two_tab_apps init _ true eq_refl).
Defined.

(** ** Apps that are not objects *)

Lemma validate_app_raises_non_object p app :
  is_obj app = false -> raises (validate_app p app).
Proof.
  intros Happ. unfold validate_app.
  do 5 (apply raises_bind_r; intro).
  apply raises_bind_l. destruct app; try discriminate; apply raises_raise.
Qed.

(** X5: an apps array with an entry that is not an object (a string, a
    number, a list, ...) always makes [AppsValidator.validate] raise, from
    any state and whatever widgets.json holds: such an app ends at
    [app.get("tabs")] at the latest. *)
Theorem validate_raises_on_non_object_app :
  forall wf apps s,
  (exists app, In app apps /\ is_obj app = false) ->
  exists s' e, validate wf (FileJson (JArr apps)) s = (s', Raise e).
Proof.
  intros wf apps s (app & Hin & Happ). revert s. unfold validate.
  apply raises_bind_r; intro. apply raises_bind_r; intro.
  apply raises_bind_l. apply raises_for_enum. exists app. split; [exact Hin|].
  intros i. apply validate_app_raises_non_object, Happ.
Qed.

Lemma validate_raises_on_non_object_app_witness :
  exists s' e, validate FileMissing
                 (FileJson (JArr [JObj [("name", JStr "A")]; JStr "B"])) init
               = (s', Raise e).
Proof.
  apply validate_raises_on_non_object_app. exists (JStr "B"). split; [simpl; auto | reflexivity].
Defined.

(** ** When a layout item returns, and when it raises *)

Definition any_rel (s s' : state) : Prop := True.

#[export] Instance any_rel_refl : Reflexive any_rel.
Proof. intros s. exact I. Qed.

#[export] Instance any_rel_trans : Transitive any_rel.
Proof. intros s1 s2 s3 _ _. exact I. Qed.









(** ** The widget-id set of a list-format [widgets.json] *)

Lemma py_heq_trans a b c : py_heq a b = true -> py_heq b c = true -> py_heq a c = true.
Proof.
  destruct a as [|[]|za|sa| |], b as [|[]|zb|sb| |], c as [|[]|zc|sc| |];
    cbv [py_heq num_of]; intros H1 H2; try discriminate; try reflexivity;
    rewrite ?String.eqb_eq, ?Z.eqb_eq in *; subst; try reflexivity;
    try (apply String.eqb_eq; reflexivity); apply Z.eqb_eq; lia.
Qed.

(** [w.get("widgetId", w.get("endpoint", ""))] for an entry [w]. *)
Definition list_widget_id (kv : list (string * json)) : json :=
  get_or kv "widgetId" (get_or kv "endpoint" (JStr "")).

(** [v == w.get("widgetId", ...)] for an object entry [w]. *)
Definition entry_id_eq (v : json) (w : json) : bool :=
  match w with JObj kv => py_heq v (list_widget_id kv) | _ => false end.

Lemma existsb_set_add v x acc :
  existsb (py_heq v) (if existsb (py_heq x) acc then acc else acc ++ [x]) =
  existsb (py_heq v) acc || py_heq v x.
Proof.
  destruct (existsb (py_heq x) acc) eqn:E.
  - destruct (py_heq v x) eqn:Hvx; [|now rewrite orb_false_r].
    apply existsb_exists in E as (y & Hy & Hxy).
    rewrite orb_true_r. apply existsb_exists. exists y. split; [exact Hy|].
    exact (py_heq_trans _ _ _ Hvx Hxy).
  - rewrite existsb_app. simpl. now rewrite orb_false_r.
Qed.

Lemma id_set_of_list_run ws : forall acc s,
  (forall w, In w ws -> exists kv, w = JObj kv /\ hashable (list_widget_id kv) = true) ->
  exists out, id_set_of_list ws acc s = (s, Ok out) /\
  forall v, existsb (py_heq v) out = existsb (py_heq v) acc || existsb (entry_id_eq v) ws.
Proof.
  induction ws as [|w ws IH]; intros acc s Hws.
  - exists acc. split; [reflexivity|]. intros v. simpl. now rewrite orb_false_r.
  - destruct (Hws w (or_introl eq_refl)) as (kv & -> & Hh).
    destruct (IH (if existsb (py_heq (list_widget_id kv)) acc then acc
                  else acc ++ [list_widget_id kv]) s)
      as (out & E & Hout); [intros w' Hw'; apply Hws; now right|].
    exists out. split.
    + cbn [id_set_of_list]. cbv [bind py_get ret py_set_add].
      unfold list_widget_id in Hh, E. rewrite Hh. exact E.
    + intros v. rewrite Hout, existsb_set_add. simpl. now rewrite orb_assoc.
Qed.

(** X13: [widgets.json] as a list. When every entry is an object whose
    [w.get("widgetId", w.get("endpoint", ""))] is hashable, loading it
    returns without a diagnostic, and a value is in the resulting
    [widget_ids] (by Python's [==], the test of the reference checks)
    exactly when it equals the id of some entry. When some entry is not
    an object, [AppsValidator.validate] raises, whenever [apps.json]
    exists. *)
Theorem list_widgets_id_set :
  forall ws s,
  ((forall w, In w ws -> exists kv, w = JObj kv /\ hashable (list_widget_id kv) = true) ->
   exists s', load_widget_ids (FileJson (JArr ws)) s = (s', Ok tt) /\
     errors s' = errors s /\ warnings s' = warnings s /\
     forall v, existsb (py_heq v) (widget_ids s') = existsb (entry_id_eq v) ws) /\
  ((exists w, In w ws /\ is_obj w = false) ->
   forall af, af <> FileMissing ->
   exists s' e, validate (FileJson (JArr ws)) af s = (s', Raise e)).
Proof.
  intros ws s. split.
  - intros Hws. destruct (id_set_of_list_run ws [] s Hws) as (out & E & Hout).
    eexists. split.
    + unfold load_widget_ids. cbv [bind]. rewrite E. reflexivity.
    + cbn. split; [reflexivity|]. split; [reflexivity|]. exact Hout.
  - intros (w & Hin & Hw) af Haf.
    assert (R : raises (load_widget_ids (FileJson (JArr ws)))).
    { unfold load_widget_ids. apply raises_bind_l.
      generalize (@nil json). induction ws as [|w0 ws IH]; [destruct Hin|].
      intros acc. cbn [id_set_of_list]. destruct Hin as [E0|Hin].
      - subst w0. destruct w; try discriminate; cbv [bind py_get]; intros st0; eexists _, _; reflexivity.
      - apply raises_bind_r; intro e. apply raises_bind_r; intro v.
        apply raises_bind_r; intro acc'. apply IH, Hin. }
    destruct af as [| |apps]; [contradiction| |]; unfold validate;
      apply raises_bind_l; exact R.
Qed.

Definition list_widgets : list json :=
  [JObj [("widgetId", JStr "a"); ("endpoint", JStr "x")];
   JObj [("endpoint", JStr "b")]; JObj [("name", JStr "c")]].

Lemma list_widgets_id_set_witness :
  (exists s', load_widget_ids (FileJson (JArr list_widgets)) init = (s', Ok tt) /\
     errors s' = errors init /\ warnings s' = warnings init /\
     forall v, existsb (py_heq v) (widget_ids s') = existsb (entry_id_eq v) list_widgets) /\
  (exists s' e, validate (FileJson (JArr (JStr "w" :: list_widgets))) FileBadJson init
                = (s', Raise e)).
Proof.
  split.
  - apply (proj1 (list_widgets_id_set list_widgets init)).
    intros w Hw. simpl in Hw.
    destruct Hw as [<-|[<-|[<-|[]]]]; eexists; split; reflexivity.
  - apply (proj2 (list_widgets_id_set (JStr "w" :: list_widgets) init));
      [exists (JStr "w"); split; [left; reflexivity | reflexivity] | discriminate].
Defined.

End AppsExtra.

(** * Further properties of the widget validator *)

Module WidgetExtra.
Import WidgetValidator.

(** ** The diagnostics lists only grow *)

Definition wgrows (s s' : state) : Prop :=
  (exists e, errors s' = errors s ++ e) /\ (exists w, warnings s' = warnings s ++ w).

#[export] Instance wgrows_refl : Reflexive wgrows.
Proof. intros s. split; [exists [] | exists []]; now rewrite app_nil_r. Qed.

#[export] Instance wgrows_trans : Transitive wgrows.
Proof.
  intros s1 s2 s3 [(e1 & E1) (w1 & W1)] [(e2 & E2) (w2 & W2)]. split.
  - exists (e1 ++ e2). now rewrite E2, E1, app_assoc.
  - exists (w1 ++ w2). now rewrite W2, W1, app_assoc.
Qed.

Lemma wgrows_add_error m : keeps wgrows (add_error m).
Proof. intros s s' r H. inversion H; subst. split; [exists [m] | exists []]; simpl; auto using app_nil_r. Qed.

Lemma wgrows_add_warning m : keeps wgrows (add_warning m).
Proof. intros s s' r H. inversion H; subst. split; [exists [] | exists [m]]; simpl; auto using app_nil_r. Qed.

Lemma wgrows_add_widget_id k : keeps wgrows (add_widget_id k).
Proof. intros s s' r H. inversion H; subst. split; exists []; simpl; auto using app_nil_r. Qed.

Lemma wgrows_modify_names (f : state -> list json) :
  keeps wgrows (modify (fun s => mkState (errors s) (warnings s) (widget_ids s) (f s))).
Proof. intros s s' r H. inversion H; subst. split; exists []; simpl; auto using app_nil_r. Qed.

Ltac wprim R :=
  first [ apply keeps_ret; exact _ | apply keeps_raise; exact _
        | apply keeps_gets; exact _
        | apply keeps_py_set_mem; exact _ | apply keeps_py_set_add; exact _
        | apply keeps_py_get; exact _ | apply keeps_py_contains; exact _
        | apply keeps_py_getitem; exact _ | apply keeps_py_iter; exact _
        | R ].

Ltac wgrows_leaf :=
  first [ apply wgrows_add_error | apply wgrows_add_warning
        | apply wgrows_add_widget_id | apply wgrows_modify_names ].

Lemma wgrows_columns_loop wid cols : forall i seen,
  keeps wgrows (columns_loop wid i cols seen).
Proof.
  induction cols as [|c cols IH]; intros i seen; simpl.
  - apply keeps_ret; exact _.
  - unfold validate_sparkline.
    repeat (keeps_steps; wprim ltac:(first [wgrows_leaf | apply IH])).
Qed.

Lemma wgrows_validate_widget wid w : keeps wgrows (validate_widget wid w).
Proof.
  unfold validate_widget, validate_grid_data, validate_params, validate_param,
    validate_options, validate_table_widget, validate_chart_widget,
    validate_mcp_tool, validate_refetch.
  repeat (keeps_steps; wprim ltac:(first [wgrows_leaf | apply wgrows_columns_loop])).
Qed.

Lemma wgrows_validate f : keeps wgrows (validate f).
Proof.
  unfold validate, errors_empty, add_endpoint_name.
  repeat (keeps_steps; wprim ltac:(first [wgrows_leaf | apply wgrows_validate_widget])).
Qed.

(** X7: every run of [WidgetValidator.validate], from any state and
    whether it returns or raises, only appends to the error and warning
    lists. *)
Theorem widgets_validate_diagnostics_only_grow :
  forall f s s' r,
  validate f s = (s', r) ->
  (exists e, errors s' = errors s ++ e) /\ (exists w, warnings s' = warnings s ++ w).
Proof. intros f s s' r H. exact (wgrows_validate f s s' r H). Qed.

Definition two_widgets : json :=
  JObj [("w1", JObj [("name", JStr "W"); ("type", JStr "table");
                     ("endpoint", JStr "w1"); ("refetchInterval", JNum 10)]);
        ("w2", JStr "abc")].

Lemma widgets_validate_diagnostics_only_grow_witness :
  exists w, warnings (fst (validate (FileJson two_widgets) init)) = warnings init ++ w.
Proof.
  exact (proj2 (widgets_validate_diagnostics_only_grow (FileJson two_widgets) init
                  _ _ eq_refl)).
Defined.

(** ** Parameters never make the validator raise *)

Definition ids_names_same (s s' : state) : Prop :=
  widget_ids s' = widget_ids s /\ endpoint_names s' = endpoint_names s.

#[export] Instance ids_names_same_refl : Reflexive ids_names_same.
Proof. intros s. split; reflexivity. Qed.

#[export] Instance ids_names_same_trans : Transitive ids_names_same.
Proof. intros s1 s2 s3 [A1 B1] [A2 B2]. split; congruence. Qed.

Lemma ins_add_error m : keeps ids_names_same (add_error m).
Proof. intros s s' r H. inversion H; subst. split; reflexivity. Qed.

Lemma ins_add_warning m : keeps ids_names_same (add_warning m).
Proof. intros s s' r H. inversion H; subst. split; reflexivity. Qed.

(** X8: [_validate_params] never raises, whatever JSON value [params] is
    (nested lists, non-object entries, options or values of any type), and
    it changes nothing but the error and warning lists. *)
Theorem validate_params_never_raises :
  forall wid params s,
  exists s', validate_params wid params s = (s', Ok tt) /\
             widget_ids s' = widget_ids s /\ endpoint_names s' = endpoint_names s.
Proof.
  intros wid params s.
  assert (T : total (validate_params wid params)).
  { unfold validate_params, validate_param, validate_options, add_error, add_warning.
    total_steps. }
  assert (K : keeps ids_names_same (validate_params wid params)).
  { unfold validate_params, validate_param, validate_options.
    repeat (keeps_steps; wprim ltac:(first [apply ins_add_error | apply ins_add_warning])). }
  destruct (T s) as (s' & [] & E). exists s'. split; [exact E | exact (K _ _ _ E)].
Qed.

(** ** Widget entries that are not objects *)

Lemma validate_widget_raises_non_object wid w :
  is_obj w = false -> raises (validate_widget wid w).
Proof.
  intros Hw. unfold validate_widget.
  apply raises_bind_r; intro. apply raises_bind_l.
  destruct w; try discriminate; apply raises_raise.
Qed.

(** X9: a non-empty widget registry with a value that is not an object (a
    string, a number, a list, [null], ...) always makes
    [WidgetValidator.validate] raise, from any state: the value fails at
    ["endpoint" in widget], at [widget["endpoint"]], or at the latest at
    [widget.get("type")]. *)
Theorem widgets_validate_raises_on_non_object_entry :
  forall kv s,
  (exists k w, In (k, w) kv /\ is_obj w = false) ->
  exists s' e, validate (FileJson (JObj kv)) s = (s', Raise e).
Proof.
  intros kv s (k & w & Hin & Hw). revert s. unfold validate.
  destruct kv as [|e0 kv]; [destruct Hin|].
  apply raises_bind_r; intro. apply raises_bind_l. apply raises_for.
  exists (k, w). split; [exact Hin|]. apply validate_widget_raises_non_object, Hw.
Qed.

Lemma widgets_validate_raises_on_non_object_entry_witness :
  exists s' e, validate (FileJson two_widgets) init = (s', Raise e).
Proof.
  apply widgets_validate_raises_on_non_object_entry.
  exists "w2", (JStr "abc"). split; [simpl; auto | reflexivity].
Defined.

(** ** Grid data *)

(** X10: [gridData] of an object widget. A truthy [gridData] that is not
    an object (a number, a string, a list, [true]) makes
    [_validate_widget] raise AttributeError, after the required-field and
    type checks; an object [gridData] never makes [_validate_grid_data]
    raise. *)
Theorem grid_data_raises_iff_not_object :
  forall wid kv s,
  (truthy (get_or kv "gridData" (JObj [])) = true ->
   is_obj (get_or kv "gridData" (JObj [])) = false ->
   exists s', validate_widget wid (JObj kv) s = (s', Raise AttributeError)) /\
  (forall gkv, exists s', validate_grid_data wid (JObj gkv) s = (s', Ok tt)).
Proof.
  intros wid kv s. split.
  - intros Ht Ho. unfold validate_widget.
    assert (T1 : total (A := unit) (St := state)
              (for_ ["name"; "type"; "endpoint"] (fun field =>
                 present <- py_contains field (JObj kv);;
                 when (negb present) (add_error (ErrMissingField wid field))))).
    { unfold add_error. cbn [py_contains]. total_steps. }
    destruct (T1 s) as (s1 & [] & E1). rewrite (bind_ok _ _ _ _ _ E1).
    cbn [py_get]. cbv [bind ret].
    destruct (truthy (get_or kv "type" JNull) && _); cbv [when add_error modify ret];
      rewrite Ht; destruct (get_or kv "gridData" (JObj [])); try discriminate;
      eexists; reflexivity.
  - intros gkv.
    assert (T : total (validate_grid_data wid (JObj gkv))).
    { unfold validate_grid_data, add_error, add_warning. cbv zeta. total_steps. }
    destruct (T s) as (s' & [] & E). exists s'. exact E.
Qed.

Lemma grid_data_raises_iff_not_object_witness :
  (exists s', validate_widget "w" (JObj [("gridData", JNum 5)]) init
              = (s', Raise AttributeError)) /\
  (exists s', validate_grid_data "w" (JObj [("w", JStr "a")]) init = (s', Ok tt)).
Proof.
  split.
  - apply (proj1 (grid_data_raises_iff_not_object "w" [("gridData", JNum 5)] init));
      reflexivity.
  - apply (proj2 (grid_data_raises_iff_not_object "w" [("gridData", JNum 5)] init)).
Defined.

(** ** The widget-id set *)

Lemma ins_columns_loop wid cols : forall i seen,
  keeps ids_names_same (columns_loop wid i cols seen).
Proof.
  induction cols as [|c cols IH]; intros i seen; simpl.
  - apply keeps_ret; exact _.
  - unfold validate_sparkline.
    repeat (keeps_steps; wprim ltac:(first [apply ins_add_error | apply ins_add_warning
                                            | apply IH])).
Qed.

Lemma ins_validate_widget wid w : keeps ids_names_same (validate_widget wid w).
Proof.
  unfold validate_widget, validate_grid_data, validate_params, validate_param,
    validate_options, validate_table_widget, validate_chart_widget,
    validate_mcp_tool, validate_refetch.
  repeat (keeps_steps; wprim ltac:(first [apply ins_add_error | apply ins_add_warning
                                          | apply ins_columns_loop])).
Qed.

Definition wids_same (s s' : state) : Prop := widget_ids s' = widget_ids s.

#[export] Instance wids_same_refl : Reflexive wids_same.
Proof. intros s. reflexivity. Qed.

#[export] Instance wids_same_trans : Transitive wids_same.
Proof. intros s1 s2 s3 A B. unfold wids_same in *. congruence. Qed.

Lemma wids_of_ins {A} (m : WM A) : keeps ids_names_same m -> keeps wids_same m.
Proof. intros K s s' r H. exact (proj1 (K _ _ _ H)). Qed.

Lemma wids_add_error m : keeps wids_same (add_error m).
Proof. apply wids_of_ins, ins_add_error. Qed.

Lemma wids_add_warning m : keeps wids_same (add_warning m).
Proof. apply wids_of_ins, ins_add_warning. Qed.

Lemma wids_modify_names (f : state -> list json) :
  keeps wids_same (modify (fun s => mkState (errors s) (warnings s) (widget_ids s) (f s))).
Proof. intros s s' r H. inversion H; subst. reflexivity. Qed.

Lemma add_widget_id_fresh k s :
  ~ In k (widget_ids s) ->
  add_widget_id k s =
  (mkState (errors s) (warnings s) (widget_ids s ++ [k]) (endpoint_names s), Ok tt).
Proof.
  intros Hk. unfold add_widget_id, modify.
  destruct (existsb (String.eqb k) (widget_ids s)) eqn:E; [|reflexivity].
  apply existsb_exists in E as (k' & Hin & Heq). apply String.eqb_eq in Heq.
  subst k'. contradiction.
Qed.

(** The collection loop of [validate]: each key is added once to
    [widget_ids], whatever else the body does. *)
Lemma collect_ids (rest : string * json -> WM unit) :
  (forall e, keeps wids_same (rest e)) ->
  forall kv s s' u,
  NoDup (widget_ids s ++ map fst kv) ->
  for_ kv (fun e => add_widget_id (fst e);; rest e) s = (s', Ok u) ->
  widget_ids s' = widget_ids s ++ map fst kv.
Proof.
  intros Hrest kv. induction kv as [|e kv IH]; intros s s' u Hnd H.
  - simpl in H. inversion H; subst. now rewrite app_nil_r.
  - simpl in H. peel H s1 a1 H1. peel H1 s2 a2 H2.
    assert (Hk : ~ In (fst e) (widget_ids s)).
    { simpl in Hnd. intros Hin. apply (NoDup_remove_2 _ _ _ Hnd).
      apply in_or_app; now left. }
    rewrite add_widget_id_fresh in H2 by exact Hk. inversion H2; subst s2.
    pose proof (Hrest e _ _ _ H1) as E1. unfold wids_same in E1. simpl in E1.
    rewrite (IH s1 s' u); [rewrite E1; simpl; now rewrite <- app_assoc | | exact H].
    rewrite E1, <- app_assoc. exact Hnd.
Qed.

(** X11: the widget-id set that [report] counts as "Widgets found". A
    returning run of [WidgetValidator.validate] on a widget registry adds
    each of its keys to [widget_ids] once, in order, and the other checks
    never touch that set. Registry keys are distinct, as the keys of a
    Python dict are. *)
Theorem widgets_found_counts_keys :
  forall kv s s' b,
  NoDup (widget_ids s ++ map fst kv) ->
  validate (FileJson (JObj kv)) s = (s', Ok b) ->
  widget_ids s' = widget_ids s ++ map fst kv.
Proof.
  intros kv s s' b Hnd H. destruct kv as [|e0 kv0].
  - cbv [validate bind add_warning modify ret] in H. inversion H; subst.
    simpl. now rewrite app_nil_r.
  - unfold validate in H. peel H s1 a1 H1.
    assert (Hrest : forall e : string * json,
      keeps wids_same
        (has_ep <- py_contains "endpoint" (snd e);;
         when has_ep (ep <- py_getitem (snd e) "endpoint";; add_endpoint_name ep))).
    { intros e. unfold add_endpoint_name.
      repeat (keeps_steps; wprim ltac:(apply wids_modify_names)). }
    pose proof (collect_ids _ Hrest (e0 :: kv0) s s1 a1 Hnd H1) as E1.
    assert (K : forall l, keeps wids_same
                  (for_ l (fun e => validate_widget (fst e) (snd e));; errors_empty)).
    { intros l. unfold errors_empty.
      repeat (keeps_steps; wprim ltac:(apply wids_of_ins, ins_validate_widget)). }
    pose proof (K _ _ _ _ H) as E2. unfold wids_same in E2. congruence.
Qed.

Definition md_widget (ep : string) : json :=
  JObj [("name", JStr "W"); ("type", JStr "markdown"); ("endpoint", JStr ep)].

Definition two_md_widgets : list (string * json) :=
  [("w1", md_widget "w1"); ("w2", md_widget "w2")].

Lemma widgets_found_counts_keys_witness :
  widget_ids (fst (validate (FileJson (JObj two_md_widgets)) init)) = ["w1"; "w2"].
Proof.
  apply (widgets_found_counts_keys two_md_widgets init _ true).
  - simpl. apply NoDup_cons; [simpl; intros [E|[]]; discriminate|].
    apply NoDup_cons; [intros []|constructor].
  - reflexivity.
Defined.

(** ** Column-definition shape errors *)

Definition is_shape_error (m : msg) : bool :=
  match m with
  | ErrColumnNotObject _ _ | ErrColumnMissingField _ _ => true
  | _ => false
  end.

(** The shape error each column earns at its index: a non-object column is
    not an object, an object column without ["field"] misses it. *)
Fixpoint column_shape_errors (wid : string) (i : nat) (cols : list json) : list msg :=
  match cols with
  | [] => []
  | c :: rest =>
      match c with
      | JObj kv => if has_key kv "field" then [] else [ErrColumnMissingField wid i]
      | _ => [ErrColumnNotObject wid i]
      end ++ column_shape_errors wid (S i) rest
  end.

(** Steps that add errors and warnings, but no shape error. *)
Definition shp (s s' : state) : Prop :=
  exists new, errors s' = errors s ++ new /\ filter is_shape_error new = [].

#[export] Instance shp_refl : Reflexive shp.
Proof. intros s. exists []. now rewrite app_nil_r. Qed.

#[export] Instance shp_trans : Transitive shp.
Proof.
  intros s1 s2 s3 (n1 & E1 & F1) (n2 & E2 & F2). exists (n1 ++ n2).
  rewrite E2, E1, app_assoc, filter_app, F1, F2. split; reflexivity.
Qed.

Lemma shp_add_error m : is_shape_error m = false -> keeps shp (add_error m).
Proof.
  intros Hm s s' r H. inversion H; subst. exists [m]. simpl. rewrite Hm. split; reflexivity.
Qed.

Lemma shp_add_warning m : keeps shp (add_warning m).
Proof. intros s s' r H. inversion H; subst. exists []. simpl. now rewrite app_nil_r. Qed.

(** Returning runs whose new errors hold exactly the shape errors [L]. *)
Definition sat {A} (L : list msg) (m : WM A) : Prop :=
  forall s s' a, m s = (s', Ok a) ->
  exists new, errors s' = errors s ++ new /\ filter is_shape_error new = L.

Lemma sat_ret L {A} (a : A) : L = [] -> sat L (ret a).
Proof. intros -> s s' b H. inversion H; subst. exists []. now rewrite app_nil_r. Qed.

Lemma sat_bind_keeps {A B} L (m : WM A) (f : A -> WM B) :
  keeps shp m -> (forall a, sat L (f a)) -> sat L (bind m f).
Proof.
  intros Km Sf s s' b H. peel H s1 a1 H1.
  destruct (Km _ _ _ H1) as (n1 & E1 & F1).
  destruct (Sf a1 _ _ _ H) as (n2 & E2 & F2).
  exists (n1 ++ n2). rewrite E2, E1, app_assoc, filter_app, F1, F2. split; reflexivity.
Qed.

Lemma sat_add_error_then {B} L m (k : WM B) :
  is_shape_error m = true -> sat L k -> sat (m :: L) (add_error m;; k).
Proof.
  intros Hm Sk s s' b H. peel H s1 a1 H1. cbv [add_error modify] in H1.
  inversion H1; subst. destruct (Sk _ _ _ H) as (n & E & F).
  exists (m :: n). simpl in E. rewrite E, <- app_assoc. simpl. rewrite Hm, F.
  split; reflexivity.
Qed.

Ltac shp_leaf :=
  first [ apply shp_add_error; reflexivity | apply shp_add_warning ].

Lemma shape_columns_loop wid cols : forall i seen,
  sat (column_shape_errors wid i cols) (columns_loop wid i cols seen).
Proof.
  induction cols as [|c cols IH]; intros i seen; cbn [columns_loop column_shape_errors].
  - apply sat_ret. reflexivity.
  - destruct c as [| | | | |kv];
      try (apply sat_add_error_then; [reflexivity | apply IH]).
    cbv zeta. unfold validate_sparkline.
    destruct (has_key kv "field"); cbv [negb when app].
    + apply sat_bind_keeps; [apply keeps_ret; exact _ | intros _].
      repeat (apply sat_bind_keeps;
              [ solve [repeat (keeps_steps; wprim shp_leaf)] | intros ? ]).
      apply IH.
    + apply sat_add_error_then; [reflexivity|].
      repeat (apply sat_bind_keeps;
              [ solve [repeat (keeps_steps; wprim shp_leaf)] | intros ? ]).
      apply IH.
Qed.

(** X12: the shape errors of a table's [columnsDefs] list. When
    [_validate_table_widget] returns, the ["is not an object"] and
    ["missing 'field'"] errors it added are, in order, one per non-object
    column and one per object column without a ["field"] key, each with
    the column's index; the other column checks add none of them. *)
Theorem table_column_shape_errors :
  forall wid kv dkv cols s s' u,
  get_or kv "data" (JObj []) = JObj dkv ->
  get_or dkv "columnsDefs" (JArr []) = JArr cols ->
  validate_table_widget wid (JObj kv) s = (s', Ok u) ->
  exists new, errors s' = errors s ++ new /\
              filter is_shape_error new = column_shape_errors wid 0 cols.
Proof.
  intros wid kv dkv cols s s' u Hd Hc H.
  unfold validate_table_widget in H. cbv [bind py_get ret] in H.
  rewrite Hd in H. cbv beta iota in H. rewrite Hc in H.
  destruct cols as [|c cols].
  - cbv [truthy negb] in H. inversion H; subst. exists []. now rewrite app_nil_r.
  - exact (shape_columns_loop wid (c :: cols) 0 [] _ _ _ H).
Qed.

Definition shape_cols : list json :=
  [JObj [("field", JStr "a")]; JNum 1; JObj [("headerName", JStr "B")];
   JObj [("field", JStr "a"); ("cellDataType", JStr "money")]].

Definition shape_table_kv : list (string * json) :=
  [("data", JObj [("columnsDefs", JArr shape_cols)])].

Lemma table_column_shape_errors_witness :
  exists new,
    errors (fst (validate_table_widget "t" (JObj shape_table_kv) init)) = errors init ++ new /\
    filter is_shape_error new = [ErrColumnNotObject "t" 1; ErrColumnMissingField "t" 2].
Proof.
  exact (table_column_shape_errors "t" shape_table_kv [("columnsDefs", JArr shape_cols)]
           shape_cols init _ tt eq_refl eq_refl eq_refl).
Defined.

(** ** Chart widgets whose [params] is not iterable *)

Definition raises_with {A} (e : pyexc) (m : WM A) : Prop :=
  forall s, exists s', m s = (s', Raise e).

Lemma raises_with_bind_total {A B} e (m : WM A) (f : A -> WM B) :
  total m -> (forall a, raises_with e (f a)) -> raises_with e (bind m f).
Proof.
  intros Tm Hf s. destruct (Tm s) as (s1 & a & E). rewrite (bind_ok _ _ _ _ _ E).
  apply Hf.
Qed.

Lemma raises_with_bind_l {A B} e (m : WM A) (f : A -> WM B) :
  raises_with e m -> raises_with e (bind m f).
Proof.
  intros Hm s. destruct (Hm s) as (s' & E). exists s'.
  exact (bind_raise _ _ _ _ _ E).
Qed.

Lemma raises_with_bind_ret {A B} e (a : A) (f : A -> WM B) :
  raises_with e (f a) -> raises_with e (bind (ret a) f).
Proof. intros H s. exact (H s). Qed.

Lemma grid_data_total wid gkv : total (validate_grid_data wid (JObj gkv)).
Proof. unfold validate_grid_data, add_error, add_warning. cbv zeta. total_steps. Qed.

Lemma validate_params_total wid params : total (validate_params wid params).
Proof.
  unfold validate_params, validate_param, validate_options, add_error, add_warning.
  total_steps.
Qed.

(** X14: [_validate_chart_widget] runs [for p in params] on the widget's
    [params] as it is. For an object widget of type ["chart"] whose
    [params] is [null], a number or a boolean (present and not iterable),
    [_validate_widget] raises TypeError, once [gridData] is absent, falsy
    or an object (so that the grid checks return). *)
Theorem chart_params_not_iterable_raises :
  forall wid kv s,
  get_or kv "type" JNull = JStr "chart" ->
  (truthy (get_or kv "gridData" (JObj [])) = false \/
   is_obj (get_or kv "gridData" (JObj [])) = true) ->
  is_list (get_or kv "params" (JArr [])) || is_obj (get_or kv "params" (JArr []))
    || is_str (get_or kv "params" (JArr [])) = false ->
  exists s', validate_widget wid (JObj kv) s = (s', Raise TypeError).
Proof.
  intros wid kv s Ht Hg Hp. revert s. fold (raises_with TypeError (validate_widget wid (JObj kv))).
  unfold validate_widget, validate_chart_widget. cbv [py_get].
  apply raises_with_bind_total;
    [unfold add_error; cbn [py_contains]; total_steps | intros _].
  apply raises_with_bind_ret. rewrite Ht.
  apply raises_with_bind_total; [unfold add_error; total_steps | intros _].
  apply raises_with_bind_ret.
  apply raises_with_bind_total.
  { destruct Hg as [Hf|Ho].
    - rewrite Hf. apply total_ret.
    - apply total_when. destruct (get_or kv "gridData" (JObj [])); try discriminate.
      apply grid_data_total. }
  intros _.
  apply raises_with_bind_ret.
  apply raises_with_bind_total; [apply total_when, validate_params_total | intros _].
  replace (eq_str "table" (JStr "chart")) with false by reflexivity.
  replace (eq_str "chart" (JStr "chart")) with true by reflexivity.
  cbv [when].
  apply raises_with_bind_total; [apply total_ret | intros _].
  apply raises_with_bind_l.
  apply raises_with_bind_ret.
  apply raises_with_bind_l.
  destruct (get_or kv "params" (JArr [])); try discriminate; intros st; eexists; reflexivity.
Qed.

Definition chart_kv : list (string * json) :=
  [("name", JStr "C"); ("type", JStr "chart"); ("endpoint", JStr "c"); ("params", JNum 5)].

Lemma chart_params_not_iterable_raises_witness :
  exists s', validate_widget "c" (JObj chart_kv) init = (s', Raise TypeError).
Proof.
  apply chart_params_not_iterable_raises; [reflexivity | left; reflexivity | reflexivity].
Defined.

End WidgetExtra.
